(** * Retry executor and iteration orchestrator of the bytebot agent

    A shallow embedding of [agent.processor.ts] (class [AgentProcessor]):
    [generateWithRetry], [extractRetryDelay], [sleep] and [runIteration].

    Modelling conventions.
    - JavaScript numbers that the code handles (status codes, delays,
      attempt counters, parsed seconds) are integers; they are modelled as
      [Z], which is exact for doubles below 2^53.  The backoff delay is
      always a multiple of 1000 (lemma [reachable_delay_values]), so the
      division [delay / 1000] is exact on every reachable state.
    - Strings are ASCII strings ([String.string]).
    - The provider ([this.service.generateMessage]), the clock behind
      [new Date()] and the response payload type are external: they are
      Section variables.  The k-th invocation of the provider answers
      [service k].
    - Effects (provider calls, timed waits, log lines) are recorded as an
      event trace by a small state/exception/trace monad. *)

From Stdlib Require Import ZArith List String Ascii Bool Lia Arith.
From Stdlib Require Import DecimalString Decimal DecimalN.
Import ListNotations.
Local Open Scope string_scope.
Local Open Scope Z_scope.
Local Open Scope list_scope.

(** ** JavaScript values met by the retry loop *)

Module Js.

(** The value of [error.code] / [error.status]. *)
Inductive CodeVal : Type :=
| CAbsent             (* undefined, null, or a missing property *)
| CNum (n : Z)        (* a number *)
| COther.             (* a truthy value that is not numeric, such as the
                         symbolic codes 'ECONNRESET' or
                         'rate_limit_exceeded': every comparison of it
                         with a number is false *)

(** ToBoolean *)
Definition truthy (v : CodeVal) : bool :=
  match v with
  | CAbsent => false
  | CNum n => negb (n =? 0)
  | COther => true
  end.

(** [a || b] *)
Definition or (a b : CodeVal) : CodeVal := if truthy a then a else b.

(** [v === k] for a number literal [k] *)
Definition strict_eq_num (v : CodeVal) (k : Z) : bool :=
  match v with
  | CNum n => n =? k
  | _ => false
  end.

(** [v >= k] *)
Definition ge_num (v : CodeVal) (k : Z) : bool :=
  match v with
  | CNum n => k <=? n
  | _ => false
  end.

(** [v < k] *)
Definition lt_num (v : CodeVal) (k : Z) : bool :=
  match v with
  | CNum n => n <? k
  | _ => false
  end.

(** [a || b] where [a] is [number | null] and [b] a number: [null] and
    [0] are both falsy. *)
Definition or_num (a : option Z) (b : Z) : Z :=
  match a with
  | Some n => if n =? 0 then b else n
  | None => b
  end.

(** [s.replace('s', '')]: the first occurrence of the character [s] is
    removed. *)
Fixpoint replace_first_s (s : string) : string :=
  match s with
  | EmptyString => EmptyString
  | String c rest =>
      if Ascii.eqb c "s"%char then rest else String c (replace_first_s rest)
  end.

Definition is_white_space (c : ascii) : bool :=
  let n := nat_of_ascii c in
  ((9 <=? n)%nat && (n <=? 13)%nat) || (n =? 32)%nat.

Fixpoint trim_start (s : string) : string :=
  match s with
  | String c rest => if is_white_space c then trim_start rest else s
  | EmptyString => EmptyString
  end.

Definition digit_value (c : ascii) : option Z :=
  let n := nat_of_ascii c in
  if ((48 <=? n)%nat && (n <=? 57)%nat)%bool
  then Some (Z.of_nat n - 48) else None.

(** The longest prefix of decimal digits, read most significant digit
    first; [acc] is [None] until a digit has been read. *)
Fixpoint read_digits (s : string) (acc : option Z) : option Z :=
  match s with
  | EmptyString => acc
  | String c rest =>
      match digit_value c with
      | Some d =>
          read_digits rest
            (Some (match acc with Some a => 10 * a + d | None => d end))
      | None => acc
      end
  end.

(** [parseInt(s, 10)]; [None] is NaN.  Leading white space is skipped, one
    sign is accepted, then the longest run of digits is read and whatever
    follows is ignored. *)
Definition parseInt10 (s : string) : option Z :=
  match trim_start s with
  | String "-"%char rest => option_map Z.opp (read_digits rest None)
  | String "+"%char rest => read_digits rest None
  | t => read_digits t None
  end.

End Js.

(** ** Provider failures *)

(** One entry of [error.details].  The entries are the JSON form of the
    provider's error details: objects keyed by ['@type'], in which a
    retry delay is a string such as [3s]. *)
Record Detail : Type := mkDetail {
  at_type : option string;       (* d['@type'] *)
  retryDelay : option string     (* d.retryDelay, a Duration in JSON form *)
}.

(** A failure raised by the provider: an object that may carry [code],
    [status], an array [details] and a string [message]; [None] stands for
    a property that is missing. *)
Record ProviderError : Type := mkProviderError {
  code : Js.CodeVal;
  status : Js.CodeVal;
  details : option (list Detail);
  message : option string
}.

Definition RetryInfo_type : string :=
  "type.googleapis.com/google.rpc.RetryInfo".

Definition is_RetryInfo (d : Detail) : bool :=
  match at_type d with
  | Some t => String.eqb t RetryInfo_type
  | None => false
  end.

(** [error?.details?.find(d => d['@type'] === '...RetryInfo')] *)
Definition find_RetryInfo (error : ProviderError) : option Detail :=
  match details error with
  | Some ds => List.find is_RetryInfo ds
  | None => None
  end.

(** [extractRetryDelay(error)] *)
Definition extractRetryDelay (error : ProviderError) : option Z :=
  let retryInfo := find_RetryInfo error in
  match retryInfo with
  | Some d =>
      match retryDelay d with
      | Some s =>
          if String.eqb s "" then None
          else Js.parseInt10 (Js.replace_first_s s)
      | None => None
      end
  | None => None
  end.

(** [const code = error?.code || error?.status] *)
Definition effective_code (error : ProviderError) : Js.CodeVal :=
  Js.or (code error) (status error).

Inductive Classification : Type := RateLimited | Transient | Fatal.

(** The branch of the [catch] block that a failure takes. *)
Definition classify (error : ProviderError) : Classification :=
  let c := effective_code error in
  if Js.strict_eq_num c 429 then RateLimited
  else if Js.ge_num c 500 && Js.lt_num c 600 then Transient
  else Fatal.

Definition retryable (error : ProviderError) : bool :=
  match classify error with
  | Fatal => false
  | _ => true
  end.

(** ** Objects shared by the calls of one processor *)

(** An [AbortSignal] object, known by its identity. *)
Record AbortSignal : Type := mkAbortSignal { signal_id : nat }.

(** An [AbortController]; [signal] is the one signal object it owns. *)
Record AbortController : Type := mkAbortController { signal : AbortSignal }.

(** [new AbortController()], [fresh] being the identity of the new object. *)
Definition new_AbortController (fresh : nat) : AbortController :=
  mkAbortController (mkAbortSignal fresh).

(** The mutable fields of an [AgentProcessor] instance ([logger] writes to
    the trace, [service] is the Section variable below). *)
Record AgentProcessor : Type := mkAgentProcessor {
  abortController : AbortController
}.

(** The field initialiser [abortController = new AbortController()]. *)
Definition new_AgentProcessor (fresh : nat) : AgentProcessor :=
  mkAgentProcessor (new_AbortController fresh).

(** The store: the receiver's fields, the signals aborted so far, and the
    number of provider invocations and of clock reads made so far. *)
Record Store : Type := mkStore {
  this : AgentProcessor;
  aborted_signals : list nat;
  st_calls : nat;
  st_clock_reads : nat
}.

(** [signal.aborted] *)
Definition is_aborted (sg : AbortSignal) (st : Store) : bool :=
  existsb (Nat.eqb (signal_id sg)) (aborted_signals st).

(** [controller.abort()]: the signal becomes aborted; nothing un-aborts. *)
Definition abort (c : AbortController) (st : Store) : Store :=
  mkStore (this st) (signal_id (signal c) :: aborted_signals st)
          (st_calls st) (st_clock_reads st).

(** What is thrown out of the executor: the object caught from the provider,
    rethrown as it is, or an [Error] object built by [new Error(message)]. *)
Inductive Thrown : Type :=
| ProviderCause (error : ProviderError)
| NewError (msg : string).

Definition max_retries_message : string := "Max retries reached for LLM call".

Definition summary_request_text : string :=
  "Respond with a summary of the messages above. Do not include any additional information.".

(** The loop variables of [generateWithRetry]. *)
Record LoopState : Type := mkLoopState { attempt : Z; delay : Z }.

Definition initial_delay : Z := 5000.
Definition delay_cap : Z := 60000.

(** [delay = Math.min(delay * 2, 60000)] *)
Definition next_delay (d : Z) : Z := Z.min (d * 2) delay_cap.

(** ** Sample values, used by the concrete runs at the end *)

(** A 429 failure without retry metadata. *)
Definition error_429 : ProviderError :=
  mkProviderError (Js.CNum 429) Js.CAbsent None (Some "quota exceeded").

(** A 500 failure that carries its number in [status]. *)
Definition error_500 : ProviderError :=
  mkProviderError Js.CAbsent (Js.CNum 500) None (Some "internal error").

(** A 401 failure. *)
Definition error_401 : ProviderError :=
  mkProviderError (Js.CNum 401) Js.CAbsent None (Some "invalid API key").

(** A 429 failure whose RetryInfo entry carries [retryDelay = s]. *)
Definition error_with_delay (s : string) : ProviderError :=
  mkProviderError (Js.CNum 429) Js.CAbsent
    (Some [mkDetail (Some RetryInfo_type) (Some s)]) None.

(** The store of a processor that has just been constructed. *)
Definition fresh_store : Store := mkStore (new_AgentProcessor 0) [] 0 0.

Section Processor.

(** The payload type [BytebotAgentResponse] (from './types'). *)
Variable Response : Type.

(** [Role] and [MessageContentType] (from '../messages/entities') with the
    two members that the code names. *)
Variable Role : Type.
Variable Role_USER : Role.
Variable MessageContentType : Type.
Variable MessageContentType_Text : MessageContentType.

(** The prompts (from './prompts'). *)
Variable AGENT_SYSTEM_PROMPT : string.
Variable SUMMARIZATION_SYSTEM_PROMPT : string.

Inductive Outcome : Type :=
| Resolved (r : Response)
| Rejected (error : ProviderError).

(** The answer of the provider to its k-th invocation (counted from 0). *)
Variable service : nat -> Outcome.

(** The value of the k-th [new Date()]. *)
Variable clock : nat -> Z.

Record ContentBlock : Type := mkContentBlock {
  block_type : MessageContentType;
  text : string
}.

(** A conversation message, with the fields of the object literal that
    [runIteration] builds. *)
Record Message : Type := mkMessage {
  id : string;
  createdAt : Z;
  updatedAt : Z;
  taskId : string;
  summaryId : option string;
  role : Role;
  content : list ContentBlock
}.

Record Model : Type := mkModel { name : string }.

(** The arguments handed to [service.generateMessage]. *)
Record GenerateArgs : Type := mkGenerateArgs {
  systemPrompt : string;
  messages : list Message;
  modelName : string;
  isAgent : bool;
  arg_signal : AbortSignal
}.

Inductive LogLine : Type :=
| Warn429 (retryDelay attempt maxRetries : Z)
| Warn5xx (code : Js.CodeVal) (seconds attempt maxRetries : Z)
| ErrorFatal (error : Thrown)
| LogProcessing (task modelName : string)
| LogCompleted (task : string).

(** Observable events.  [EvGenerate args a]: the provider is invoked with
    [args], whose signal reads [aborted = a] at that moment. *)
Inductive Event : Type :=
| EvGenerate (args : GenerateArgs) (signal_aborted : bool)
| EvSleep (ms : Z)
| EvLog (line : LogLine).

(** *** The monad: store, exceptions, trace *)

Inductive Res (A : Type) : Type :=
| Ok (a : A)
| Throw (x : Thrown)
| OutOfFuel.
Arguments Ok {A} a.
Arguments Throw {A} x.
Arguments OutOfFuel {A}.

Definition M (A : Type) : Type := Store -> Res A * Store * list Event.

Definition ret {A} (a : A) : M A := fun st => (Ok a, st, []).

Definition bind {A B} (m : M A) (k : A -> M B) : M B :=
  fun st =>
    match m st with
    | (Ok a, st1, t1) =>
        let '(r, st2, t2) := k a st1 in (r, st2, t1 ++ t2)
    | (Throw x, st1, t1) => (Throw x, st1, t1)
    | (OutOfFuel, st1, t1) => (OutOfFuel, st1, t1)
    end.

Definition throw {A} (x : Thrown) : M A := fun st => (Throw x, st, []).

(** [try { m } catch (error) { handler error }] *)
Definition try_catch {A} (m : M A) (handler : Thrown -> M A) : M A :=
  fun st =>
    match m st with
    | (Throw x, st1, t1) =>
        let '(r, st2, t2) := handler x st1 in (r, st2, t1 ++ t2)
    | other => other
    end.

Definition emit (e : Event) : M unit := fun st => (Ok tt, st, [e]).

Definition get_this : M AgentProcessor := fun st => (Ok (this st), st, []).

Notation "x <- m ;; k" := (bind m (fun x => k))
  (at level 61, m at next level, right associativity).
Notation "m ;; k" := (bind m (fun _ => k))
  (at level 61, right associativity).

(** [this.logger.warn / error / log] *)
Definition log (line : LogLine) : M unit := emit (EvLog line).

(** [this.sleep(ms)] *)
Definition sleep (ms : Z) : M unit := emit (EvSleep ms).

(** [new Date()] *)
Definition new_Date : M Z :=
  fun st =>
    (Ok (clock (st_clock_reads st)),
     mkStore (this st) (aborted_signals st) (st_calls st)
             (S (st_clock_reads st)),
     []).

(** [await this.service.generateMessage(...)]: the next answer of the
    provider; a rejection is thrown. *)
Definition generateMessage (args : GenerateArgs) : M Response :=
  fun st =>
    let st' := mkStore (this st) (aborted_signals st) (S (st_calls st))
                       (st_clock_reads st) in
    let ev := EvGenerate args (is_aborted (arg_signal args) st) in
    match service (st_calls st) with
    | Resolved r => (Ok r, st', [ev])
    | Rejected error => (Throw (ProviderCause error), st', [ev])
    end.

(** *** [generateWithRetry] *)

Inductive Step : Type :=
| Return (r : Response)          (* [return await ...] *)
| Continue (ls : LoopState).     (* [continue], after [attempt++] *)

Definition advance (ls : LoopState) : LoopState :=
  mkLoopState (attempt ls + 1) (next_delay (delay ls)).

(** The [catch (error)] block. *)
Definition on_error (maxRetries : Z) (ls : LoopState) (error : Thrown)
  : M Step :=
  match error with
  | ProviderCause e =>
      let code := Js.or (code e) (status e) in
      if Js.strict_eq_num code 429 then
        let retryDelay := Js.or_num (extractRetryDelay e) (delay ls / 1000) in
        log (Warn429 retryDelay (attempt ls) maxRetries) ;;
        sleep (retryDelay * 1000) ;;
        ret (Continue (advance ls))
      else if Js.ge_num code 500 && Js.lt_num code 600 then
        log (Warn5xx code (delay ls / 1000) (attempt ls) maxRetries) ;;
        sleep (delay ls) ;;
        ret (Continue (advance ls))
      else
        log (ErrorFatal error) ;;
        throw error
  | NewError _ =>
      (* an [Error] object has neither [code] nor [status] *)
      log (ErrorFatal error) ;;
      throw error
  end.

(** One pass through the body of the [for] loop. *)
Definition loop_body (args : GenerateArgs) (maxRetries : Z) (ls : LoopState)
  : M Step :=
  try_catch
    (r <- generateMessage args ;; ret (Return r))
    (on_error maxRetries ls).

(** [for (let attempt = 1; attempt <= maxRetries; attempt++) { ... }]
    followed by the final [throw]. *)
Fixpoint retry_loop (fuel : nat) (args : GenerateArgs) (maxRetries : Z)
         (ls : LoopState) : M Response :=
  match fuel with
  | O => fun st => (OutOfFuel, st, [])
  | S fuel' =>
      if attempt ls <=? maxRetries then
        step <- loop_body args maxRetries ls ;;
        match step with
        | Return r => ret r
        | Continue ls' => retry_loop fuel' args maxRetries ls'
        end
      else throw (NewError max_retries_message)
  end.

Definition default_maxRetries : Z := 10.

Definition generateWithRetry (args : GenerateArgs) (maxRetries : Z)
  : M Response :=
  retry_loop (S (Z.to_nat maxRetries)) args maxRetries
             (mkLoopState 1 initial_delay).

(** *** [runIteration] *)

(** The object literal appended to the messages. *)
Definition summary_request (task : string) (created updated : Z) : Message :=
  mkMessage "" created updated task None Role_USER
            [mkContentBlock MessageContentType_Text summary_request_text].

Definition runIteration (task : string) (msgs : list Message)
           (model : Model) (shouldSummarize : bool) : M unit :=
  log (LogProcessing task (name model)) ;;
  self <- get_this ;;
  agentResponse <-
    generateWithRetry
      (mkGenerateArgs AGENT_SYSTEM_PROMPT msgs (name model) true
                      (signal (abortController self)))
      default_maxRetries ;;
  (if shouldSummarize then
     created <- new_Date ;;
     updated <- new_Date ;;
     let summaryMessages := msgs ++ [summary_request task created updated] in
     self' <- get_this ;;
     summaryResponse <-
       generateWithRetry
         (mkGenerateArgs SUMMARIZATION_SYSTEM_PROMPT summaryMessages
                         (name model) false
                         (signal (abortController self')))
         default_maxRetries ;;
     ret tt
   else ret tt) ;;
  log (LogCompleted task).

(** *** Reading traces *)

Inductive Kind : Type := KCall | KSleep.

Definition Kind_eq_dec (a b : Kind) : {a = b} + {a <> b}.
Proof. decide equality. Defined.

(** The provider invocations and timed waits of a trace, in order. *)
Fixpoint kinds (t : list Event) : list Kind :=
  match t with
  | [] => []
  | EvGenerate _ _ :: t' => KCall :: kinds t'
  | EvSleep _ :: t' => KSleep :: kinds t'
  | EvLog _ :: t' => kinds t'
  end.

(** The arguments of the provider invocations of a trace. *)
Fixpoint calls_of (t : list Event) : list GenerateArgs :=
  match t with
  | [] => []
  | EvGenerate a _ :: t' => a :: calls_of t'
  | _ :: t' => calls_of t'
  end.

(** What each provider invocation of a trace read from [signal.aborted]. *)
Fixpoint observed_aborted (t : list Event) : list bool :=
  match t with
  | [] => []
  | EvGenerate _ b :: t' => b :: observed_aborted t'
  | _ :: t' => observed_aborted t'
  end.

(** The durations of the timed waits of a trace, in milliseconds. *)
Fixpoint sleeps (t : list Event) : list Z :=
  match t with
  | [] => []
  | EvSleep ms :: t' => ms :: sleeps t'
  | _ :: t' => sleeps t'
  end.

(** [n] failed attempts, each followed by its wait. *)
Fixpoint failed_attempts (n : nat) : list Kind :=
  match n with
  | O => []
  | S n' => KCall :: KSleep :: failed_attempts n'
  end.

(** The store after [n] more provider invocations. *)
Definition after_calls (st : Store) (n : nat) : Store :=
  mkStore (this st) (aborted_signals st) (n + st_calls st)
          (st_clock_reads st).

(** The loop variables after [n] passes that ended in [continue]. *)
Fixpoint advance_n (n : nat) (ls : LoopState) : LoopState :=
  match n with
  | O => ls
  | S n' => advance_n n' (advance ls)
  end.

(** The wait that follows a retryable failure when the backoff delay is
    [d], in milliseconds. *)
Definition retry_wait (e : ProviderError) (d : Z) : Z :=
  match classify e with
  | RateLimited => Js.or_num (extractRetryDelay e) (d / 1000) * 1000
  | _ => d
  end.

(** The waits of [n] consecutive retryable failures, the first of which
    answers provider invocation [k] while the backoff delay is [d]. *)
Fixpoint expected_waits (n k : nat) (d : Z) : list Z :=
  match n with
  | O => []
  | S n' =>
      match service k with
      | Rejected e => retry_wait e d :: expected_waits n' (S k) (next_delay d)
      | Resolved _ => []
      end
  end.

(** The failure carries no retry delay that [extractRetryDelay] can read:
    no RetryInfo entry, no [retryDelay] in it, an empty one, or one in
    which [parseInt] finds no integer once the first [s] is removed. *)
Definition retry_delay_unreadable (e : ProviderError) : Prop :=
  match find_RetryInfo e with
  | None => True
  | Some det =>
      match retryDelay det with
      | None => True
      | Some s => s = "" \/ Js.parseInt10 (Js.replace_first_s s) = None
      end
  end.

(** The loop of one [generateWithRetry] invocation, as a step relation:
    [loop_reaches args M ls0 st0 n ls st] when [n] passes through the loop
    body, each ending in [continue], lead from the loop head [(ls0, st0)]
    to the loop head [(ls, st)]. *)
Inductive loop_reaches (args : GenerateArgs) (maxRetries : Z)
          (ls0 : LoopState) (st0 : Store)
  : nat -> LoopState -> Store -> Prop :=
| reaches_start : loop_reaches args maxRetries ls0 st0 O ls0 st0
| reaches_continue n ls st ls' st' t :
    loop_reaches args maxRetries ls0 st0 n ls st ->
    attempt ls <= maxRetries ->
    loop_body args maxRetries ls st = (Ok (Continue ls'), st', t) ->
    loop_reaches args maxRetries ls0 st0 (S n) ls' st'.

(** What a finished run of the loop guarantees. *)
Record run_facts (args : GenerateArgs) (M : Z) (ls : LoopState)
       (st : Store) (r : Res Response) (st' : Store) (t : list Event)
  : Prop := mkRunFacts {
  rf_this : this st' = this st;
  rf_aborted : aborted_signals st' = aborted_signals st;
  rf_clock : st_clock_reads st' = st_clock_reads st;
  rf_calls : st_calls st' = (List.length (calls_of t) + st_calls st)%nat;
  rf_args : Forall (fun a => a = args) (calls_of t);
  rf_observed :
    Forall (fun b => b = is_aborted (arg_signal args) st)
           (observed_aborted t);
  rf_bound : Z.of_nat (List.length (calls_of t))
             <= Z.max 0 (M + 1 - attempt ls);
  rf_some_call : attempt ls <= M -> (1 <= List.length (calls_of t))%nat;
  rf_result :
    match r with
    | Ok a =>
        exists k, st_calls st' = S k /\ service k = Resolved a
    | Throw (ProviderCause e) =>
        classify e = Fatal /\
        exists k, st_calls st' = S k /\ service k = Rejected e
    | Throw (NewError m) => m = max_retries_message
    | OutOfFuel => False
    end
}.

(** The arguments of the two executor calls of [runIteration]. *)
Definition primary_args (self : AgentProcessor) (msgs : list Message)
           (model : Model) : GenerateArgs :=
  mkGenerateArgs AGENT_SYSTEM_PROMPT msgs (name model) true
                 (signal (abortController self)).

Definition summary_args (self : AgentProcessor) (task : string)
           (msgs : list Message) (model : Model) (created updated : Z)
  : GenerateArgs :=
  mkGenerateArgs SUMMARIZATION_SYSTEM_PROMPT
                 (msgs ++ [summary_request task created updated])
                 (name model) false (signal (abortController self)).

(** The store after the two [new Date()] of the object literal. *)
Definition after_dates (st : Store) : Store :=
  mkStore (this st) (aborted_signals st) (st_calls st)
          (S (S (st_clock_reads st))).

(** The three ways an executor run ends. *)
Definition executor_outcome {A} (r : Res A) (st' : Store) : Prop :=
  (exists a, r = Ok a) \/
  (exists e k, r = Throw (ProviderCause e) /\ classify e = Fatal /\
               st_calls st' = S k /\ service k = Rejected e) \/
  r = Throw (NewError max_retries_message).

(** A provider that answers from a fixed list, then with [otherwise]. *)
Definition script (answers : list Outcome) (otherwise : Outcome)
  : nat -> Outcome :=
  fun k => nth k answers otherwise.

(** *** A caller using one processor over time *)

Inductive Action : Type :=
| RunIteration (task : string) (msgs : list Message) (model : Model)
               (shouldSummarize : bool)
| AbortNow.   (* something calls [abortController.abort()] *)

(** The caller performs the actions in order on the same instance; an
    error thrown by one [runIteration] does not stop the caller. *)
Fixpoint drive (acts : list Action) (st : Store) : Store * list Event :=
  match acts with
  | [] => (st, [])
  | RunIteration task msgs model b :: rest =>
      let '(_, st1, t1) := runIteration task msgs model b st in
      let '(st2, t2) := drive rest st1 in
      (st2, t1 ++ t2)
  | AbortNow :: rest => drive rest (abort (abortController (this st)) st)
  end.

(** *** Further readings of a trace *)

(** The warn line that announces the wait after a retryable failure. *)
Definition retry_line (maxRetries : Z) (ls : LoopState) (e : ProviderError)
  : LogLine :=
  match classify e with
  | RateLimited =>
      Warn429 (Js.or_num (extractRetryDelay e) (delay ls / 1000))
              (attempt ls) maxRetries
  | _ => Warn5xx (effective_code e) (delay ls / 1000) (attempt ls) maxRetries
  end.

(** Every warn line of the trace is followed at once by a wait of 1000 times
    the seconds it reports, the lines number the attempts [a], [a+1], ...
    out of [maxRetries], and no wait comes without its line. *)
Fixpoint warns_announce_waits (a maxRetries : Z) (t : list Event) : bool :=
  match t with
  | [] => true
  | EvLog (Warn429 secs n m) :: rest
  | EvLog (Warn5xx _ secs n m) :: rest =>
      match rest with
      | EvSleep ms :: rest' =>
          (n =? a) && (m =? maxRetries) && (ms =? secs * 1000)
          && warns_announce_waits (a + 1) maxRetries rest'
      | _ => false
      end
  | EvSleep _ :: _ => false
  | _ :: rest => warns_announce_waits a maxRetries rest
  end.

(** The tasks reported as completed by a trace. *)
Fixpoint completed_lines (t : list Event) : list string :=
  match t with
  | [] => []
  | EvLog (LogCompleted task) :: rest => task :: completed_lines rest
  | _ :: rest => completed_lines rest
  end.

(** The error-level lines of a trace. *)
Fixpoint error_lines (t : list Event) : list Thrown :=
  match t with
  | [] => []
  | EvLog (ErrorFatal x) :: rest => x :: error_lines rest
  | _ :: rest => error_lines rest
  end.

(** The delay at the loop head reached after [i] retries. *)
Definition delay_after (i : nat) : Z := Z.min (5000 * 2 ^ Z.of_nat i) 60000.

(** A failure that only differs from [e] in its [details]. *)
Definition with_details (e : ProviderError) (ds : option (list Detail))
  : ProviderError :=
  mkProviderError (code e) (status e) ds (message e).

(** Evaluates [Js.digit_value] on the literal character in the goal. *)
Ltac eval_digit_value :=
  match goal with
  | |- context [Js.digit_value ?c] =>
      let v := eval vm_compute in (Js.digit_value c) in
      change (Js.digit_value c) with v
  end.

(** ** Properties *)

(** *** Reading traces *)

Lemma kinds_app t1 t2 : kinds (t1 ++ t2) = kinds t1 ++ kinds t2.
Proof.
  induction t1 as [|[a b|ms|l] t1 IH]; simpl; rewrite ?IH; reflexivity.
Qed.

Lemma sleeps_app t1 t2 : sleeps (t1 ++ t2) = sleeps t1 ++ sleeps t2.
Proof.
  induction t1 as [|[a b|ms|l] t1 IH]; simpl; rewrite ?IH; reflexivity.
Qed.

Lemma calls_of_app t1 t2 : calls_of (t1 ++ t2) = calls_of t1 ++ calls_of t2.
Proof.
  induction t1 as [|[a b|ms|l] t1 IH]; simpl; rewrite ?IH; reflexivity.
Qed.

Lemma observed_aborted_app t1 t2 :
  observed_aborted (t1 ++ t2) = observed_aborted t1 ++ observed_aborted t2.
Proof.
  induction t1 as [|[a b|ms|l] t1 IH]; simpl; rewrite ?IH; reflexivity.
Qed.

Lemma length_sleeps_kinds t :
  List.length (sleeps t) = count_occ Kind_eq_dec (kinds t) KSleep.
Proof.
  induction t as [|[a b|ms|l] t IH]; simpl; auto.
Qed.

Lemma length_calls_kinds t :
  List.length (calls_of t) = count_occ Kind_eq_dec (kinds t) KCall.
Proof.
  induction t as [|[a b|ms|l] t IH]; simpl; auto.
Qed.

Lemma count_failed_attempts n :
  count_occ Kind_eq_dec (failed_attempts n) KCall = n /\
  count_occ Kind_eq_dec (failed_attempts n) KSleep = n.
Proof.
  induction n as [|n [IHc IHs]]; simpl; auto.
Qed.

(** *** One pass through the loop body *)

Lemma loop_body_resolved args M ls st r :
  service (st_calls st) = Resolved r ->
  loop_body args M ls st =
  (Ok (Return r), after_calls st 1,
   [EvGenerate args (is_aborted (arg_signal args) st)]).
Proof.
  intros H. unfold loop_body, try_catch, bind, generateMessage, ret.
  rewrite H. reflexivity.
Qed.

Lemma loop_body_retryable args M ls st e :
  service (st_calls st) = Rejected e ->
  retryable e = true ->
  exists line,
    loop_body args M ls st =
    (Ok (Continue (advance ls)), after_calls st 1,
     [EvGenerate args (is_aborted (arg_signal args) st);
      EvLog line; EvSleep (retry_wait e (delay ls))]).
Proof.
  intros H Hr.
  unfold loop_body, try_catch, bind, generateMessage, ret.
  rewrite H. cbn [on_error].
  unfold retryable, retry_wait, classify, effective_code in *.
  destruct (Js.strict_eq_num (Js.or (code e) (status e)) 429).
  - eexists. reflexivity.
  - destruct (Js.ge_num (Js.or (code e) (status e)) 500
              && Js.lt_num (Js.or (code e) (status e)) 600).
    + eexists. reflexivity.
    + discriminate.
Qed.

Lemma loop_body_fatal args M ls st e :
  service (st_calls st) = Rejected e ->
  classify e = Fatal ->
  loop_body args M ls st =
  (Throw (ProviderCause e), after_calls st 1,
   [EvGenerate args (is_aborted (arg_signal args) st);
    EvLog (ErrorFatal (ProviderCause e))]).
Proof.
  intros H Hf.
  unfold loop_body, try_catch, bind, generateMessage, ret.
  rewrite H. cbn [on_error].
  unfold classify, effective_code in Hf.
  destruct (Js.strict_eq_num (Js.or (code e) (status e)) 429);
    [discriminate|].
  destruct (Js.ge_num (Js.or (code e) (status e)) 500
            && Js.lt_num (Js.or (code e) (status e)) 600);
    [discriminate|].
  reflexivity.
Qed.

(** *** The retry loop *)

Lemma retryable_iff e :
  retryable e = true <-> classify e = RateLimited \/ classify e = Transient.
Proof.
  unfold retryable. destruct (classify e); intuition discriminate.
Qed.

Lemma retry_loop_unfold fuel args M ls st :
  retry_loop (S fuel) args M ls st =
  if attempt ls <=? M then
    match loop_body args M ls st with
    | (Ok (Return r), st1, t1) => (Ok r, st1, t1 ++ [])
    | (Ok (Continue ls'), st1, t1) =>
        let '(r, st2, t2) := retry_loop fuel args M ls' st1 in
        (r, st2, t1 ++ t2)
    | (Throw x, st1, t1) => (Throw x, st1, t1)
    | (OutOfFuel, st1, t1) => (OutOfFuel, st1, t1)
    end
  else (Throw (NewError max_retries_message), st, []).
Proof.
  simpl. destruct (attempt ls <=? M); [|reflexivity].
  unfold bind. destruct (loop_body args M ls st) as [[[[r|ls']|x|] st1] t1];
    reflexivity.
Qed.

Lemma attempt_advance_n n ls :
  attempt (advance_n n ls) = attempt ls + Z.of_nat n.
Proof.
  revert ls. induction n as [|n IH]; intros ls.
  - simpl. lia.
  - cbn [advance_n]. rewrite IH. unfold advance. cbn [attempt]. lia.
Qed.

Lemma delay_advance_n_succ n ls :
  delay (advance_n (S n) ls) = next_delay (delay (advance_n n ls)).
Proof.
  revert ls. induction n as [|n IH]; intros ls.
  - reflexivity.
  - change (advance_n (S (S n)) ls) with (advance_n (S n) (advance ls)).
    rewrite IH. reflexivity.
Qed.

Lemma after_calls_after_calls st n m :
  after_calls (after_calls st n) m = after_calls st (m + n).
Proof.
  unfold after_calls. cbn. f_equal. lia.
Qed.

Lemma loop_reaches_first args M ls st ls1 st1 t n ls2 st2 :
  attempt ls <= M ->
  loop_body args M ls st = (Ok (Continue ls1), st1, t) ->
  loop_reaches args M ls1 st1 n ls2 st2 ->
  loop_reaches args M ls st (S n) ls2 st2.
Proof.
  intros Hle Hbody Hreach. induction Hreach.
  - eapply reaches_continue; [apply reaches_start|exact Hle|exact Hbody].
  - eapply reaches_continue; eauto.
Qed.

(** [n] retryable failures in a row, with attempts left for each, are [n]
    passes through the loop body, each one call followed by one wait. *)
Lemma retry_loop_prefix args M n :
  forall ls st,
    (forall i, (i < n)%nat ->
               exists e, service (i + st_calls st) = Rejected e /\
                         retryable e = true) ->
    attempt ls + Z.of_nat n <= M + 1 ->
    exists tpre,
      kinds tpre = failed_attempts n /\
      sleeps tpre = expected_waits n (st_calls st) (delay ls) /\
      loop_reaches args M ls st n (advance_n n ls) (after_calls st n) /\
      forall fuel,
        retry_loop (n + fuel) args M ls st =
        let '(r, st', t) :=
          retry_loop fuel args M (advance_n n ls) (after_calls st n) in
        (r, st', tpre ++ t).
Proof.
  induction n as [|n IH]; intros ls st Hfail Hle.
  - exists []. destruct st as [th ab c k].
    split; [reflexivity|]. split; [reflexivity|].
    split; [apply reaches_start|].
    intros fuel. unfold after_calls. cbn.
    destruct (retry_loop fuel args M ls (mkStore th ab c k)) as [[r st'] t].
    reflexivity.
  - destruct (Hfail O ltac:(lia)) as [e [He Hr]]. cbn in He.
    destruct (loop_body_retryable args M ls st e He Hr) as [line Hbody].
    destruct (IH (advance ls) (after_calls st 1)) as [tpre [Hk [Hs [Hreach Hrun]]]].
    + intros i Hi. destruct (Hfail (S i) ltac:(lia)) as [e' [He' Hr']].
      exists e'. split; [|exact Hr'].
      cbn [after_calls st_calls]. rewrite <- He'. f_equal. lia.
    + unfold advance. cbn [attempt]. lia.
    + exists ([EvGenerate args (is_aborted (arg_signal args) st);
               EvLog line; EvSleep (retry_wait e (delay ls))] ++ tpre).
      split; [|split; [|split]].
      * rewrite kinds_app, Hk. reflexivity.
      * rewrite sleeps_app, Hs. cbn [expected_waits]. rewrite He.
        reflexivity.
      * cbn [advance_n].
        replace (after_calls st (S n))
          with (after_calls (after_calls st 1) n)
          by (rewrite after_calls_after_calls; f_equal; lia).
        eapply loop_reaches_first; [lia|exact Hbody|exact Hreach].
      * intros fuel. cbn [Nat.add]. rewrite retry_loop_unfold.
        replace (attempt ls <=? M) with true by (symmetry; apply Z.leb_le; lia).
        rewrite Hbody, Hrun. cbn [advance_n].
        rewrite after_calls_after_calls.
        replace (n + 1)%nat with (S n) by lia.
        destruct (retry_loop fuel args M (advance_n n (advance ls))
                             (after_calls st (S n))) as [[r st'] t].
        reflexivity.
Qed.

Lemma generateWithRetry_split args M n st :
  (forall i, (i < n)%nat ->
             exists e, service (i + st_calls st) = Rejected e /\
                       (classify e = RateLimited \/ classify e = Transient)) ->
  Z.of_nat n <= M ->
  exists tpre,
    kinds tpre = failed_attempts n /\
    sleeps tpre = expected_waits n (st_calls st) initial_delay /\
    generateWithRetry args M st =
    let '(r, st', t) :=
      retry_loop (S (Z.to_nat M - n)) args M
                 (advance_n n (mkLoopState 1 initial_delay))
                 (after_calls st n) in
    (r, st', tpre ++ t).
Proof.
  intros Hfail Hle.
  destruct (retry_loop_prefix args M n (mkLoopState 1 initial_delay) st)
    as [tpre [Hk [Hs [_ Hrun]]]].
  - intros i Hi. destruct (Hfail i Hi) as [e [He Hc]].
    exists e. split; [exact He|]. apply retryable_iff. exact Hc.
  - cbn [attempt]. lia.
  - exists tpre. split; [exact Hk|]. split; [exact Hs|].
    unfold generateWithRetry.
    replace (S (Z.to_nat M)) with (n + S (Z.to_nat M - n))%nat by lia.
    apply Hrun.
Qed.

(** C1.  If the first N-1 attempts (N <= maxRetries) fail with a
    RateLimited or Transient classification and the N-th invocation of the
    provider succeeds, generateWithRetry returns that value unchanged,
    invokes the provider N times and waits exactly N-1 times: once after
    each failed attempt and not after the success. *)
Theorem generateWithRetry_returns_first_success
        args (M : Z) (N : nat) (r : Response) st :
  (1 <= N)%nat ->
  Z.of_nat N <= M ->
  (forall i, (i < N - 1)%nat ->
             exists e, service (i + st_calls st) = Rejected e /\
                       (classify e = RateLimited \/ classify e = Transient)) ->
  service ((N - 1) + st_calls st) = Resolved r ->
  exists tr,
    generateWithRetry args M st = (Ok r, after_calls st N, tr) /\
    kinds tr = failed_attempts (N - 1) ++ [KCall] /\
    List.length (sleeps tr) = (N - 1)%nat /\
    List.length (calls_of tr) = N.
Proof.
  intros HN HNM Hfail Hok.
  destruct (generateWithRetry_split args M (N - 1) st Hfail ltac:(lia))
    as [tpre [Hk [_ Hrun]]].
  rewrite retry_loop_unfold in Hrun.
  rewrite attempt_advance_n in Hrun. cbn [attempt] in Hrun.
  replace (1 + Z.of_nat (N - 1) <=? M) with true in Hrun
    by (symmetry; apply Z.leb_le; lia).
  rewrite (loop_body_resolved _ _ _ _ r) in Hrun by exact Hok.
  rewrite after_calls_after_calls in Hrun.
  replace (1 + (N - 1))%nat with N in Hrun by lia.
  eexists. split; [exact Hrun|].
  assert (Hkinds : kinds (tpre ++ [EvGenerate args
                     (is_aborted (arg_signal args) (after_calls st (N - 1)))]
                     ++ []) = failed_attempts (N - 1) ++ [KCall]).
  { rewrite kinds_app, Hk. reflexivity. }
  split; [exact Hkinds|].
  rewrite length_sleeps_kinds, length_calls_kinds, Hkinds.
  rewrite !count_occ_app.
  destruct (count_failed_attempts (N - 1)) as [Hc Hs].
  rewrite Hc, Hs. cbn. lia.
Qed.

(** Every attempt of an invocation failing retryably: the run common to
    the exhaustion properties. *)
Lemma generateWithRetry_all_fail args M st :
  1 <= M ->
  (forall i, (i < Z.to_nat M)%nat ->
             exists e, service (i + st_calls st) = Rejected e /\
                       (classify e = RateLimited \/ classify e = Transient)) ->
  exists tr,
    generateWithRetry args M st =
    (Throw (NewError max_retries_message), after_calls st (Z.to_nat M), tr) /\
    kinds tr = failed_attempts (Z.to_nat M) /\
    sleeps tr = expected_waits (Z.to_nat M) (st_calls st) initial_delay.
Proof.
  intros HM Hfail.
  destruct (generateWithRetry_split args M (Z.to_nat M) st Hfail ltac:(lia))
    as [tpre [Hk [Hs Hrun]]].
  rewrite retry_loop_unfold in Hrun.
  rewrite attempt_advance_n in Hrun. cbn [attempt] in Hrun.
  replace (1 + Z.of_nat (Z.to_nat M) <=? M) with false in Hrun
    by (symmetry; apply Z.leb_gt; lia).
  rewrite app_nil_r in Hrun.
  exists tpre. auto.
Qed.

(** C2.  For maxRetries = M >= 1, if each of the first M invocations of
    the provider fails retryably, generateWithRetry invokes the provider
    exactly M times, never an (M+1)-th, and then throws the error built by
    [new Error('Max retries reached for LLM call')], which is none of the
    provider's errors. *)
Theorem generateWithRetry_retries_exhausted args M st :
  1 <= M ->
  (forall i, (i < Z.to_nat M)%nat ->
             exists e, service (i + st_calls st) = Rejected e /\
                       (classify e = RateLimited \/ classify e = Transient)) ->
  exists st' tr,
    generateWithRetry args M st =
    (Throw (NewError max_retries_message), st', tr) /\
    List.length (calls_of tr) = Z.to_nat M /\
    st_calls st' = (Z.to_nat M + st_calls st)%nat /\
    (forall e, NewError max_retries_message <> ProviderCause e).
Proof.
  intros HM Hfail.
  destruct (generateWithRetry_all_fail args M st HM Hfail)
    as [tr [Hrun [Hk _]]].
  exists (after_calls st (Z.to_nat M)), tr.
  split; [exact Hrun|]. split; [|split].
  - rewrite length_calls_kinds, Hk. apply count_failed_attempts.
  - reflexivity.
  - intros e. discriminate.
Qed.

(** C3.  If attempt k <= maxRetries fails with a Fatal classification
    (effective code neither 429 nor in [500, 600)), generateWithRetry stops
    there: k provider invocations, k-1 waits, none of them after the fatal
    failure, and the error thrown is the provider's own error object. *)
Theorem generateWithRetry_fatal_stops args (M : Z) (k : nat) e st :
  (1 <= k)%nat ->
  Z.of_nat k <= M ->
  (forall i, (i < k - 1)%nat ->
             exists e', service (i + st_calls st) = Rejected e' /\
                        (classify e' = RateLimited \/ classify e' = Transient)) ->
  service ((k - 1) + st_calls st) = Rejected e ->
  classify e = Fatal ->
  exists tr,
    generateWithRetry args M st =
    (Throw (ProviderCause e), after_calls st k, tr) /\
    kinds tr = failed_attempts (k - 1) ++ [KCall] /\
    List.length (calls_of tr) = k /\
    List.length (sleeps tr) = (k - 1)%nat.
Proof.
  intros Hk HkM Hfail He Hfatal.
  destruct (generateWithRetry_split args M (k - 1) st Hfail ltac:(lia))
    as [tpre [Hkinds [_ Hrun]]].
  rewrite retry_loop_unfold in Hrun.
  rewrite attempt_advance_n in Hrun. cbn [attempt] in Hrun.
  replace (1 + Z.of_nat (k - 1) <=? M) with true in Hrun
    by (symmetry; apply Z.leb_le; lia).
  rewrite (loop_body_fatal _ _ _ _ e) in Hrun by assumption.
  rewrite after_calls_after_calls in Hrun.
  replace (1 + (k - 1))%nat with k in Hrun by lia.
  eexists. split; [exact Hrun|].
  assert (Hsh : kinds (tpre ++
                 [EvGenerate args
                    (is_aborted (arg_signal args) (after_calls st (k - 1)));
                  EvLog (ErrorFatal (ProviderCause e))])
                = failed_attempts (k - 1) ++ [KCall]).
  { rewrite kinds_app, Hkinds. reflexivity. }
  split; [exact Hsh|].
  rewrite length_sleeps_kinds, length_calls_kinds, Hsh.
  rewrite !count_occ_app.
  destruct (count_failed_attempts (k - 1)) as [Hc Hs].
  rewrite Hc, Hs. cbn. lia.
Qed.

Lemma failed_attempts_snoc n :
  failed_attempts (S n) = failed_attempts n ++ [KCall; KSleep].
Proof.
  induction n as [|n IH]; [reflexivity|].
  change (failed_attempts (S (S n)))
    with (KCall :: KSleep :: failed_attempts (S n)).
  rewrite IH at 1. reflexivity.
Qed.

(** C9.  When all M = maxRetries attempts fail retryably, generateWithRetry
    waits exactly M times before it throws the exhaustion error: the last
    thing it does is the wait that follows the M-th failed attempt. *)
Theorem generateWithRetry_sleeps_before_exhaustion args M st :
  1 <= M ->
  (forall i, (i < Z.to_nat M)%nat ->
             exists e, service (i + st_calls st) = Rejected e /\
                       (classify e = RateLimited \/ classify e = Transient)) ->
  exists st' tr,
    generateWithRetry args M st =
    (Throw (NewError max_retries_message), st', tr) /\
    List.length (sleeps tr) = Z.to_nat M /\
    kinds tr = failed_attempts (Z.to_nat M - 1) ++ [KCall; KSleep] /\
    sleeps tr = expected_waits (Z.to_nat M) (st_calls st) initial_delay.
Proof.
  intros HM Hfail.
  destruct (generateWithRetry_all_fail args M st HM Hfail)
    as [tr [Hrun [Hk Hs]]].
  exists (after_calls st (Z.to_nat M)), tr.
  split; [exact Hrun|]. split; [|split].
  - rewrite length_sleeps_kinds, Hk. apply count_failed_attempts.
  - rewrite Hk. rewrite <- failed_attempts_snoc. f_equal. lia.
  - exact Hs.
Qed.

(** *** Any run of the retry loop, whatever the provider answers *)

Lemma loop_body_cases args M ls st :
  let ev := EvGenerate args (is_aborted (arg_signal args) st) in
  (exists r,
      service (st_calls st) = Resolved r /\
      loop_body args M ls st = (Ok (Return r), after_calls st 1, [ev])) \/
  (exists e line,
      service (st_calls st) = Rejected e /\ retryable e = true /\
      loop_body args M ls st =
      (Ok (Continue (advance ls)), after_calls st 1,
       [ev; EvLog line; EvSleep (retry_wait e (delay ls))])) \/
  (exists e,
      service (st_calls st) = Rejected e /\ classify e = Fatal /\
      loop_body args M ls st =
      (Throw (ProviderCause e), after_calls st 1,
       [ev; EvLog (ErrorFatal (ProviderCause e))])).
Proof.
  intros ev. destruct (service (st_calls st)) as [r|e] eqn:Hs.
  - left. exists r. split; [reflexivity|].
    apply loop_body_resolved. exact Hs.
  - destruct (retryable e) eqn:Hr.
    + right. left.
      destruct (loop_body_retryable args M ls st e Hs Hr) as [line Hb].
      exists e, line. auto.
    + right. right. exists e. split; [reflexivity|].
      assert (Hf : classify e = Fatal).
      { unfold retryable in Hr. destruct (classify e); congruence. }
      split; [exact Hf|]. apply loop_body_fatal; assumption.
Qed.

Lemma retry_loop_facts args M :
  forall fuel ls st r st' t,
    (Z.to_nat (M + 1 - attempt ls) < fuel)%nat ->
    retry_loop fuel args M ls st = (r, st', t) ->
    run_facts args M ls st r st' t.
Proof.
  induction fuel as [|fuel IH]; intros ls st r st' t Hfuel Hrun; [lia|].
  rewrite retry_loop_unfold in Hrun.
  destruct (attempt ls <=? M) eqn:Hle.
  - apply Z.leb_le in Hle.
    destruct (loop_body_cases args M ls st)
      as [[a [Hs Hb]]|[[e [line [Hs [Hr Hb]]]]|[e [Hs [Hf Hb]]]]];
      rewrite Hb in Hrun.
    + inversion Hrun; subst; clear Hrun.
      constructor; cbn; try reflexivity; try lia.
      * repeat constructor.
      * repeat constructor.
      * exists (st_calls st). auto.
    + destruct (retry_loop fuel args M (advance ls) (after_calls st 1))
        as [[r1 st1] t1] eqn:Hrec.
      inversion Hrun; subst; clear Hrun.
      apply IH in Hrec; [|unfold advance; cbn [attempt]; lia].
      destruct Hrec as [Ht Ha Hc Hn Hargs Hobs Hb' Hsome Hres].
      cbn [this aborted_signals st_clock_reads st_calls after_calls] in *.
      constructor; cbn [calls_of observed_aborted app List.length];
        try assumption; try lia.
      * constructor; [reflexivity|exact Hargs].
      * constructor; [reflexivity|exact Hobs].
      * unfold advance in Hb'. cbn [attempt] in Hb'. lia.
    + inversion Hrun; subst; clear Hrun.
      constructor; cbn; try reflexivity; try lia.
      * repeat constructor.
      * repeat constructor.
      * split; [exact Hf|]. exists (st_calls st). auto.
  - apply Z.leb_gt in Hle.
    inversion Hrun; subst; clear Hrun.
    constructor; cbn; try reflexivity; try lia; constructor.
Qed.

Lemma generateWithRetry_facts args M st r st' t :
  generateWithRetry args M st = (r, st', t) ->
  run_facts args M (mkLoopState 1 initial_delay) st r st' t.
Proof.
  intros H. eapply retry_loop_facts; [|exact H]. cbn [attempt]. lia.
Qed.

(** *** The backoff delay *)

Lemma loop_reaches_inv args M ls0 st0 n ls st :
  loop_reaches args M ls0 st0 n ls st ->
  ls = advance_n n ls0 /\
  st = after_calls st0 n /\
  (n = O \/ attempt ls0 + Z.of_nat n <= M + 1) /\
  forall i, (i < n)%nat ->
            exists e, service (i + st_calls st0) = Rejected e /\
                      retryable e = true.
Proof.
  induction 1 as [|n ls st ls' st' t Hreach [IHls [IHst [_ IHf]]] Hle Hbody].
  - destruct st0; repeat split; auto; intros; lia.
  - destruct (loop_body_cases args M ls st)
      as [[a [Hs Hb]]|[[e [line [Hs [Hr Hb]]]]|[e [Hs [Hf Hb]]]]];
      rewrite Hb in Hbody; inversion Hbody; subst ls' st'; clear Hbody.
    split; [|split; [|split]].
    + rewrite IHls. clear. revert ls0.
      induction n as [|n IH]; intros ls0; [reflexivity|].
      cbn [advance_n]. rewrite IH. reflexivity.
    + rewrite IHst. apply after_calls_after_calls.
    + right. rewrite IHls, attempt_advance_n in Hle. lia.
    + clear Hle. intros i Hi. destruct (Nat.eq_dec i n) as [->|Hne].
      * exists e. split; [|exact Hr]. rewrite <- Hs, IHst. reflexivity.
      * apply IHf. lia.
Qed.

Lemma delay_advance_n n ls :
  5000 <= delay ls <= 60000 ->
  delay (advance_n n ls) = Z.min (delay ls * 2 ^ Z.of_nat n) 60000.
Proof.
  intros Hd. induction n as [|n IH].
  - cbn [advance_n]. change (2 ^ Z.of_nat 0) with 1. lia.
  - rewrite delay_advance_n_succ, IH. unfold next_delay, delay_cap.
    rewrite Nat2Z.inj_succ, Z.pow_succ_r by lia.
    assert (0 < 2 ^ Z.of_nat n) by (apply Z.pow_pos_nonneg; lia).
    nia.
Qed.

Lemma pow2_ge_16 n : (4 <= n)%nat -> 16 <= 2 ^ Z.of_nat n.
Proof.
  intros H. change 16 with (2 ^ 4).
  apply Z.pow_le_mono_r; lia.
Qed.

(** The delay only ever takes five values, all multiples of 1000. *)
Lemma reachable_delay_values n :
  In (delay (advance_n n (mkLoopState 1 initial_delay)))
     [5000; 10000; 20000; 40000; 60000].
Proof.
  rewrite delay_advance_n by (cbn; unfold initial_delay; lia).
  cbn [delay]. unfold initial_delay.
  destruct n as [|[|[|[|n]]]]; cbn [In]; try (vm_compute; tauto).
  pose proof (pow2_ge_16 (S (S (S (S n)))) ltac:(lia)).
  right; right; right; right; left. lia.
Qed.

Lemma reachable_delay_exact_seconds n :
  let d := delay (advance_n n (mkLoopState 1 initial_delay)) in
  d / 1000 * 1000 = d.
Proof.
  intros d. pose proof (reachable_delay_values n) as H. fold d in H.
  cbn [In] in H.
  destruct H as [H|[H|[H|[H|[H|[]]]]]]; rewrite <- H; reflexivity.
Qed.

(** C4.  Within one generateWithRetry invocation the delay is 5000 at the
    first loop head and, after n passes that ended in a retry,
    min(5000 * 2^n, 60000): each retryable failure replaces it by
    min(2 * delay, 60000), so it never decreases, never exceeds 60000 and
    is 5000 again at no later loop head of the same invocation.  The loop
    heads in question are those of the invocation: it goes on from each of
    them. *)
Theorem backoff_delay_invariant args M st n ls st' :
  loop_reaches args M (mkLoopState 1 initial_delay) st n ls st' ->
  delay ls = Z.min (5000 * 2 ^ Z.of_nat n) 60000 /\
  5000 <= delay ls <= 60000 /\
  (delay ls = 5000 <-> n = O) /\
  (exists tpre,
      kinds tpre = failed_attempts n /\
      generateWithRetry args M st =
      let '(r, st2, t) := retry_loop (S (Z.to_nat M - n)) args M ls st' in
      (r, st2, tpre ++ t)) /\
  (forall e, service (st_calls st') = Rejected e ->
             classify e = RateLimited \/ classify e = Transient ->
             exists st2 t,
               loop_body args M ls st' =
               (Ok (Continue (advance ls)), st2, t)) /\
  (forall ls2 st2 t,
      loop_body args M ls st' = (Ok (Continue ls2), st2, t) ->
      delay ls2 = Z.min (2 * delay ls) 60000 /\
      delay ls <= delay ls2).
Proof.
  intros Hreach. apply loop_reaches_inv in Hreach.
  destruct Hreach as [Hls [Hst [Hn Hfail]]].
  assert (Hd : delay ls = Z.min (5000 * 2 ^ Z.of_nat n) 60000).
  { rewrite Hls, delay_advance_n by (cbn; unfold initial_delay; lia).
    reflexivity. }
  assert (Hpos : 1 <= 2 ^ Z.of_nat n).
  { change 1 with (2 ^ 0). apply Z.pow_le_mono_r; lia. }
  split; [exact Hd|]. split; [lia|]. split; [|split; [|split]].
  - split.
    + intros H5. destruct n as [|n]; [reflexivity|].
      rewrite Nat2Z.inj_succ, Z.pow_succ_r in Hd by lia.
      assert (1 <= 2 ^ Z.of_nat n)
        by (change 1 with (2 ^ 0); apply Z.pow_le_mono_r; lia).
      lia.
    + intros ->. rewrite Hd. reflexivity.
  - destruct Hn as [->|Hn].
    + exists []. split; [reflexivity|]. subst ls st'. cbn [advance_n].
      unfold generateWithRetry. rewrite Nat.sub_0_r.
      destruct st as [th ab c k]. unfold after_calls.
      cbn [Nat.add this aborted_signals st_calls st_clock_reads].
      destruct (retry_loop (S (Z.to_nat M)) args M _ _) as [[r st2] t].
      reflexivity.
    + cbn [attempt] in Hn.
      destruct (generateWithRetry_split args M n st) as [tpre [Hk [_ Hrun]]].
      * intros i Hi. destruct (Hfail i Hi) as [e [He Hr]].
        exists e. split; [exact He|]. apply retryable_iff. exact Hr.
      * lia.
      * exists tpre. split; [exact Hk|]. subst ls st'. exact Hrun.
  - intros e He Hc. apply retryable_iff in Hc.
    destruct (loop_body_retryable args M ls st' e He Hc) as [line Hb].
    eauto.
  - intros ls2 st2 t Hb.
    destruct (loop_body_cases args M ls st')
      as [[a [Hs Hb']]|[[e [line [Hs [Hr Hb']]]]|[e [Hs [Hf Hb']]]]];
      rewrite Hb' in Hb; inversion Hb; subst.
    unfold advance, next_delay, delay_cap. cbn [delay]. lia.
Qed.

(** *** Reading the retry delay *)

Lemma read_digits_of_uint_acc u :
  forall acc,
    Js.read_digits (NilEmpty.string_of_uint u) (Some (Z.pos acc)) =
    Some (Z.pos (Pos.of_uint_acc u acc)).
Proof.
  induction u; intros acc; cbn [NilEmpty.string_of_uint Js.read_digits];
    try reflexivity;
    cbn [Pos.of_uint_acc];
    eval_digit_value;
    cbv iota; rewrite <- IHu; f_equal; f_equal; lia.
Qed.

Lemma read_digits_of_uint_zero u :
  Js.read_digits (NilEmpty.string_of_uint u) (Some 0) =
  Some (Z.of_N (N.of_uint u)).
Proof.
  unfold N.of_uint.
  induction u; cbn [NilEmpty.string_of_uint Js.read_digits Pos.of_uint];
    try reflexivity;
    eval_digit_value;
    cbv iota;
    first [ exact IHu
          | cbn [Z.of_N]; rewrite <- read_digits_of_uint_acc; reflexivity ].
Qed.

Lemma read_digits_of_uint u :
  u <> Nil ->
  Js.read_digits (NilEmpty.string_of_uint u) None =
  Some (Z.of_N (N.of_uint u)).
Proof.
  intros Hu. destruct u; [congruence| ..];
    cbn [NilEmpty.string_of_uint Js.read_digits];
    eval_digit_value;
    cbv iota;
    first [ exact (read_digits_of_uint_zero _)
          | unfold N.of_uint; cbn [Pos.of_uint Z.of_N];
            rewrite <- read_digits_of_uint_acc; reflexivity ].
Qed.

Lemma replace_first_s_digits u :
  Js.replace_first_s (NilEmpty.string_of_uint u ++ "s")%string =
  NilEmpty.string_of_uint u.
Proof.
  induction u; cbn; rewrite ?IHu; reflexivity.
Qed.

Lemma parseInt10_digits u :
  u <> Nil ->
  Js.parseInt10 (NilEmpty.string_of_uint u) = Some (Z.of_N (N.of_uint u)).
Proof.
  intros Hu. rewrite <- (read_digits_of_uint u Hu).
  destruct u; [congruence| ..]; reflexivity.
Qed.

Lemma string_of_uint_nonempty u :
  u <> Nil -> (NilEmpty.string_of_uint u ++ "s")%string <> "".
Proof.
  destruct u; [congruence| ..]; discriminate.
Qed.

(** A string of digits followed by [s] is read as its decimal value. *)
Lemma extractRetryDelay_digits e det u :
  find_RetryInfo e = Some det ->
  retryDelay det = Some (NilEmpty.string_of_uint u ++ "s")%string ->
  u <> Nil ->
  extractRetryDelay e = Some (Z.of_N (N.of_uint u)).
Proof.
  intros Hfind Hrd Hu. unfold extractRetryDelay. rewrite Hfind, Hrd.
  destruct (String.eqb_spec (NilEmpty.string_of_uint u ++ "s")%string "")
    as [Hempty|_].
  - exfalso. exact (string_of_uint_nonempty u Hu Hempty).
  - rewrite replace_first_s_digits. apply parseInt10_digits. exact Hu.
Qed.

Lemma extractRetryDelay_unreadable e :
  retry_delay_unreadable e -> extractRetryDelay e = None.
Proof.
  unfold retry_delay_unreadable, extractRetryDelay.
  destruct (find_RetryInfo e) as [det|]; [|reflexivity].
  destruct (retryDelay det) as [s|]; [|reflexivity].
  intros [->|Hnan]; [reflexivity|].
  destruct (String.eqb s ""); [reflexivity|exact Hnan].
Qed.

(** C5 (amended).  After a RateLimited (429) failure the loop body never
    fails; it waits once and goes on to the next attempt.  If the first
    RetryInfo entry carries a string of digits followed by [s] whose value
    is not zero, the wait is that number of seconds, whatever the backoff
    delay; if the failure carries no readable retry delay (no entry, no or
    an empty field, or a string such as [abc] in which no integer is
    found), the wait is delay / 1000 seconds. *)
Theorem rate_limited_wait args M ls st e :
  service (st_calls st) = Rejected e ->
  classify e = RateLimited ->
  exists line wait,
    loop_body args M ls st =
    (Ok (Continue (advance ls)), after_calls st 1,
     [EvGenerate args (is_aborted (arg_signal args) st);
      EvLog line; EvSleep wait]) /\
    (forall det u,
        find_RetryInfo e = Some det ->
        retryDelay det = Some (NilEmpty.string_of_uint u ++ "s")%string ->
        N.of_uint u <> 0%N ->
        wait = Z.of_N (N.of_uint u) * 1000) /\
    (retry_delay_unreadable e -> wait = delay ls / 1000 * 1000).
Proof.
  intros He Hc.
  destruct (loop_body_retryable args M ls st e He) as [line Hb].
  { apply retryable_iff. left. exact Hc. }
  exists line, (retry_wait e (delay ls)). split; [exact Hb|].
  unfold retry_wait. rewrite Hc. split.
  - intros det u Hfind Hrd Hnz.
    assert (Hu : u <> Nil) by (intros ->; apply Hnz; reflexivity).
    rewrite (extractRetryDelay_digits e det u Hfind Hrd Hu).
    unfold Js.or_num.
    destruct (Z.eqb_spec (Z.of_N (N.of_uint u)) 0) as [H0|_]; [lia|].
    reflexivity.
  - intros Hun. rewrite (extractRetryDelay_unreadable e Hun). reflexivity.
Qed.

(** *** [runIteration] *)

Lemma runIteration_unfold task msgs model b st :
  runIteration task msgs model b st =
  let started := EvLog (LogProcessing task (name model)) in
  match generateWithRetry (primary_args (this st) msgs model)
                          default_maxRetries st with
  | (Ok _, st1, t1) =>
      if b then
        match generateWithRetry
                (summary_args (this st1) task msgs model
                              (clock (st_clock_reads st1))
                              (clock (S (st_clock_reads st1))))
                default_maxRetries (after_dates st1) with
        | (Ok _, st2, t2) =>
            (Ok tt, st2, started :: t1 ++ t2 ++ [EvLog (LogCompleted task)])
        | (Throw x, st2, t2) => (Throw x, st2, started :: t1 ++ t2)
        | (OutOfFuel, st2, t2) => (OutOfFuel, st2, started :: t1 ++ t2)
        end
      else (Ok tt, st1, started :: t1 ++ [EvLog (LogCompleted task)])
  | (Throw x, st1, t1) => (Throw x, st1, started :: t1)
  | (OutOfFuel, st1, t1) => (OutOfFuel, st1, started :: t1)
  end.
Proof.
  unfold runIteration, bind, log, emit, get_this, new_Date, ret,
    primary_args, summary_args, after_dates.
  cbn zeta.
  destruct (generateWithRetry _ default_maxRetries st) as [[[a|x|] st1] t1];
    cbn [app this aborted_signals st_calls st_clock_reads];
    try reflexivity.
  destruct b; cbn [app]; [|reflexivity].
  match goal with
  | |- context [generateWithRetry ?a ?m ?s] =>
      destruct (generateWithRetry a m s) as [[[a2|x2|] st2] t2]
  end; cbn [app]; rewrite ?app_nil_r; reflexivity.
Qed.

Lemma Forall_eq_repeat {A} (x : A) (l : list A) :
  Forall (fun a => a = x) l -> l = repeat x (List.length l).
Proof.
  induction 1 as [|a l Ha _ IH]; [reflexivity|].
  cbn. rewrite <- IH, Ha. reflexivity.
Qed.

Lemma generateWithRetry_first_try args M st r :
  1 <= M ->
  service (st_calls st) = Resolved r ->
  generateWithRetry args M st =
  (Ok r, after_calls st 1,
   [EvGenerate args (is_aborted (arg_signal args) st)]).
Proof.
  intros HM Hs. unfold generateWithRetry. rewrite retry_loop_unfold.
  cbn [attempt].
  replace (1 <=? M) with true by (symmetry; apply Z.leb_le; exact HM).
  rewrite (loop_body_resolved _ _ _ _ r Hs). reflexivity.
Qed.

(** One executor run with the default ceiling: between 1 and 10 provider
    invocations, all with the arguments of the run, and a single one when
    the first attempt succeeds. *)
Lemma generateWithRetry_default_calls args st r st' t :
  generateWithRetry args default_maxRetries st = (r, st', t) ->
  exists n : nat,
    (1 <= n <= 10)%nat /\
    calls_of t = repeat args n /\
    (forall x, service (st_calls st) = Resolved x -> n = 1%nat).
Proof.
  intros Hrun. pose proof (generateWithRetry_facts _ _ _ _ _ _ Hrun) as F.
  destruct F as [_ _ _ _ Hargs _ Hb Hsome _].
  cbn [attempt] in Hb, Hsome. unfold default_maxRetries in Hb, Hsome.
  exists (List.length (calls_of t)). split; [lia|].
  split; [apply Forall_eq_repeat; exact Hargs|].
  intros x Hx.
  rewrite (generateWithRetry_first_try args default_maxRetries st x) in Hrun
    by (unfold default_maxRetries; lia || exact Hx).
  inversion Hrun; subst. reflexivity.
Qed.

Lemma runIteration_calls_of task msgs model b st :
  calls_of (snd (runIteration task msgs model b st)) =
  match generateWithRetry (primary_args (this st) msgs model)
                          default_maxRetries st with
  | (Ok _, st1, t1) =>
      if b then
        calls_of t1 ++
        calls_of (snd (generateWithRetry
                         (summary_args (this st1) task msgs model
                                       (clock (st_clock_reads st1))
                                       (clock (S (st_clock_reads st1))))
                         default_maxRetries (after_dates st1)))
      else calls_of t1
  | (_, _, t1) => calls_of t1
  end.
Proof.
  rewrite runIteration_unfold. cbn zeta.
  destruct (generateWithRetry _ default_maxRetries st) as [[[a|x|] st1] t1];
    try reflexivity.
  destruct b.
  - destruct (generateWithRetry _ default_maxRetries (after_dates st1))
      as [[[a2|x2|] st2] t2];
      cbn [snd calls_of]; rewrite ?calls_of_app; cbn [calls_of];
      rewrite ?app_nil_r; reflexivity.
  - cbn [snd calls_of]. rewrite calls_of_app. cbn [calls_of].
    apply app_nil_r.
Qed.

(** C6 (amended).  runIteration runs the executor once when shouldSummarize
    is false, and twice when it is true and the primary run succeeds.  Each
    run invokes the provider once per attempt (1 to 10 times, once when the
    first attempt succeeds), always with the same arguments.  The primary
    run passes the input messages; the summarization run passes the input
    messages followed by one synthetic message: role user, the fixed
    summary-request text as its only content block, the caller's taskId and
    a null summaryId. *)
Theorem runIteration_provider_calls task msgs model b st :
  let a1 := primary_args (this st) msgs model in
  let t := snd (runIteration task msgs model b st) in
  let '(r1, st1, t1) := generateWithRetry a1 default_maxRetries st in
  exists n1 : nat,
    (1 <= n1 <= 10)%nat /\
    calls_of t1 = repeat a1 n1 /\
    messages a1 = msgs /\
    (forall x, service (st_calls st) = Resolved x -> n1 = 1%nat) /\
    match r1, b with
    | Ok _, true =>
        exists (n2 : nat) created updated,
          let synthetic := summary_request task created updated in
          let a2 := summary_args (this st) task msgs model created updated in
          calls_of t = repeat a1 n1 ++ repeat a2 n2 /\
          (1 <= n2 <= 10)%nat /\
          (forall x, service (st_calls st1) = Resolved x -> n2 = 1%nat) /\
          messages a2 = msgs ++ [synthetic] /\
          List.length (messages a2) = S (List.length msgs) /\
          role synthetic = Role_USER /\
          content synthetic =
          [mkContentBlock MessageContentType_Text summary_request_text] /\
          taskId synthetic = task /\
          summaryId synthetic = None
    | _, _ => calls_of t = repeat a1 n1
    end.
Proof.
  intros a1 t. subst t. rewrite runIteration_calls_of. fold a1.
  destruct (generateWithRetry a1 default_maxRetries st)
    as [[r1 st1] t1] eqn:H1.
  destruct (generateWithRetry_default_calls _ _ _ _ _ H1)
    as [n1 [Hn1 [Hc1 Hone1]]].
  pose proof (generateWithRetry_facts _ _ _ _ _ _ H1) as F1.
  exists n1. split; [exact Hn1|]. split; [exact Hc1|].
  split; [reflexivity|]. split; [exact Hone1|].
  destruct r1 as [x1|x1|]; try (destruct b; exact Hc1).
  destruct b; [|exact Hc1].
  destruct (generateWithRetry _ default_maxRetries (after_dates st1))
    as [[r2 st2] t2] eqn:H2.
  destruct (generateWithRetry_default_calls _ _ _ _ _ H2)
    as [n2 [Hn2 [Hc2 Hone2]]].
  rewrite (rf_this _ _ _ _ _ _ _ F1) in Hc2.
  exists n2, (clock (st_clock_reads st1)), (clock (S (st_clock_reads st1))).
  cbn zeta. cbn [snd]. rewrite Hc1, Hc2.
  split; [reflexivity|]. split; [exact Hn2|]. split; [exact Hone2|].
  split; [reflexivity|].
  split; [cbn [messages summary_args]; rewrite length_app; cbn; lia|].
  repeat split.
Qed.

Lemma generateWithRetry_outcome args M st r st' t :
  generateWithRetry args M st = (r, st', t) ->
  executor_outcome r st'.
Proof.
  intros Hrun. pose proof (generateWithRetry_facts _ _ _ _ _ _ Hrun) as F.
  pose proof (rf_result _ _ _ _ _ _ _ F) as Hres. unfold executor_outcome.
  destruct r as [a|[e|m]|].
  - left. eauto.
  - right. left. destruct Hres as [Hf [k [Hk Hs]]]. exists e, k. auto.
  - right. right. rewrite Hres. reflexivity.
  - contradiction.
Qed.

Lemma executor_outcome_not_retryable {A} (r : Res A) st' e :
  executor_outcome r st' ->
  classify e = RateLimited \/ classify e = Transient ->
  r <> Throw (ProviderCause e).
Proof.
  intros [[a ->]|[[e' [k [-> [Hf _]]]]| ->]] Hc Heq; try discriminate.
  inversion Heq; subst e'. rewrite Hf in Hc. destruct Hc; discriminate.
Qed.

Lemma executor_outcome_throw {A B} (x : Thrown) st' :
  executor_outcome (@Throw A x) st' -> executor_outcome (@Throw B x) st'.
Proof.
  intros [[a Ha]|[[e [k [Heq H]]]|Heq]]; [discriminate| |].
  - right. left. exists e, k. inversion Heq; subst. auto.
  - right. right. inversion Heq; subst. reflexivity.
Qed.

Lemma executor_outcome_throw_cases {A} (x : Thrown) st' :
  executor_outcome (@Throw A x) st' ->
  (exists e k, @Throw A x = Throw (ProviderCause e) /\ classify e = Fatal /\
               st_calls st' = S k /\ service k = Rejected e) \/
  @Throw A x = Throw (NewError max_retries_message).
Proof.
  intros [[a Ha]|[H|H]]; [discriminate|left|right]; exact H.
Qed.

(** C7.  runIteration ends in one of three ways: normal completion, the
    provider's Fatal failure itself, or the executor's exhaustion error.  A
    RateLimited or Transient failure is never what the caller receives.  An
    error of the summarization run is thrown out of runIteration although
    the primary run succeeded; the caller gets no other result. *)
Theorem runIteration_outcomes task msgs model b st :
  let '(r, st', t) := runIteration task msgs model b st in
  (r = Ok tt \/
   (exists e k, r = Throw (ProviderCause e) /\ classify e = Fatal /\
                st_calls st' = S k /\ service k = Rejected e) \/
   r = Throw (NewError max_retries_message)) /\
  (forall e, classify e = RateLimited \/ classify e = Transient ->
             r <> Throw (ProviderCause e)) /\
  let '(r1, st1, _) :=
    generateWithRetry (primary_args (this st) msgs model)
                      default_maxRetries st in
  match r1, b with
  | Ok _, true =>
      let '(r2, _, _) :=
        generateWithRetry
          (summary_args (this st1) task msgs model
                        (clock (st_clock_reads st1))
                        (clock (S (st_clock_reads st1))))
          default_maxRetries (after_dates st1) in
      match r2 with
      | Ok _ => r = Ok tt
      | Throw y => r = Throw y
      | OutOfFuel => False
      end
  | Ok _, false => r = Ok tt
  | Throw y, _ => r = Throw y
  | OutOfFuel, _ => False
  end.
Proof.
  rewrite runIteration_unfold. cbn zeta.
  destruct (generateWithRetry _ default_maxRetries st)
    as [[r1 st1] t1] eqn:H1.
  pose proof (generateWithRetry_outcome _ _ _ _ _ _ H1) as O1.
  destruct r1 as [a1|x1|].
  - destruct b.
    + destruct (generateWithRetry _ default_maxRetries (after_dates st1))
        as [[r2 st2] t2] eqn:H2.
      pose proof (generateWithRetry_outcome _ _ _ _ _ _ H2) as O2.
      destruct r2 as [a2|x2|].
      * split; [left; reflexivity|]. split; [discriminate|reflexivity].
      * apply (@executor_outcome_throw _ unit) in O2.
        split; [|split; [|reflexivity]].
        -- right. apply executor_outcome_throw_cases. exact O2.
        -- intros e He. eapply executor_outcome_not_retryable; eauto.
      * exfalso. destruct O2 as [[a Ha]|[[e [k [Ha _]]]|Ha]]; discriminate.
    + split; [left; reflexivity|]. split; [discriminate|reflexivity].
  - apply (@executor_outcome_throw _ unit) in O1.
    split; [|split; [|destruct b; reflexivity]].
    + right. apply executor_outcome_throw_cases. exact O1.
    + intros e He. eapply executor_outcome_not_retryable; eauto.
  - exfalso. destruct O1 as [[a Ha]|[[e [k [Ha _]]]|Ha]]; discriminate.
Qed.

(** *** The abort controller *)

Lemma runIteration_frame task msgs model b st :
  let sg := signal (abortController (this st)) in
  let '(r, st', t) := runIteration task msgs model b st in
  this st' = this st /\
  aborted_signals st' = aborted_signals st /\
  Forall (fun a => arg_signal a = sg) (calls_of t) /\
  Forall (fun o => o = is_aborted sg st) (observed_aborted t).
Proof.
  intros sg. rewrite runIteration_unfold. cbn zeta.
  destruct (generateWithRetry _ default_maxRetries st)
    as [[r1 st1] t1] eqn:H1.
  pose proof (generateWithRetry_facts _ _ _ _ _ _ H1) as F1.
  destruct F1 as [Ht1 Ha1 _ _ Hargs1 Hobs1 _ _ _].
  assert (Hsig1 : Forall (fun a => arg_signal a = sg) (calls_of t1)).
  { eapply Forall_impl; [|exact Hargs1]. intros ga ->. reflexivity. }
  assert (Hlog : forall l, this st1 = this st /\
                 aborted_signals st1 = aborted_signals st /\
                 Forall (fun a => arg_signal a = sg)
                        (calls_of (t1 ++ [EvLog l])) /\
                 Forall (fun o => o = is_aborted sg st)
                        (observed_aborted (t1 ++ [EvLog l]))).
  { intros l. rewrite calls_of_app, observed_aborted_app. cbn.
    rewrite !app_nil_r. auto. }
  destruct r1 as [x1|x1|]; cbn [calls_of observed_aborted]; auto.
  destruct b; [|apply Hlog].
  destruct (generateWithRetry _ default_maxRetries (after_dates st1))
    as [[r2 st2] t2] eqn:H2.
  pose proof (generateWithRetry_facts _ _ _ _ _ _ H2) as F2.
  destruct F2 as [Ht2 Ha2 _ _ Hargs2 Hobs2 _ _ _].
  cbn [this aborted_signals after_dates] in Ht2, Ha2.
  assert (Hsig2 : Forall (fun a => arg_signal a = sg) (calls_of t2)).
  { eapply Forall_impl; [|exact Hargs2]. intros ga ->.
    cbn [arg_signal summary_args]. rewrite Ht1. reflexivity. }
  assert (Hobs2' : Forall (fun o => o = is_aborted sg st)
                          (observed_aborted t2)).
  { eapply Forall_impl; [|exact Hobs2]. intros o ->.
    cbn [arg_signal summary_args]. unfold is_aborted.
    cbn [aborted_signals after_dates]. rewrite Ht1, Ha1. reflexivity. }
  assert (Hboth : this st2 = this st /\
                  aborted_signals st2 = aborted_signals st /\
                  Forall (fun a => arg_signal a = sg) (calls_of (t1 ++ t2)) /\
                  Forall (fun o => o = is_aborted sg st)
                         (observed_aborted (t1 ++ t2))).
  { rewrite calls_of_app, observed_aborted_app.
    repeat split; try congruence; apply Forall_app; auto. }
  destruct r2 as [a2|x2|]; cbn [calls_of observed_aborted]; try exact Hboth.
  rewrite app_assoc, calls_of_app, observed_aborted_app. cbn.
  rewrite !app_nil_r. exact Hboth.
Qed.

Lemma drive_app acts1 acts2 st :
  drive (acts1 ++ acts2) st =
  let '(st1, t1) := drive acts1 st in
  let '(st2, t2) := drive acts2 st1 in
  (st2, t1 ++ t2).
Proof.
  revert st. induction acts1 as [|[task msgs model b|] acts1 IH]; intros st.
  - cbn. destruct (drive acts2 st). reflexivity.
  - rewrite <- app_comm_cons. cbn [drive].
    destruct (runIteration task msgs model b st) as [[r st1] t1].
    rewrite IH. destruct (drive acts1 st1) as [st2 t2].
    destruct (drive acts2 st2) as [st3 t3]. rewrite app_assoc. reflexivity.
  - rewrite <- app_comm_cons. cbn [drive]. apply IH.
Qed.

Lemma is_aborted_abort st :
  is_aborted (signal (abortController (this st)))
             (abort (abortController (this st)) st) = true.
Proof.
  unfold is_aborted, abort. cbn. rewrite Nat.eqb_refl. reflexivity.
Qed.

Lemma is_aborted_abort_mono sg c st :
  is_aborted sg st = true -> is_aborted sg (abort c st) = true.
Proof.
  unfold is_aborted, abort. cbn. intros ->. apply orb_true_r.
Qed.

(** Whatever the caller does, the processor keeps its controller, every
    provider invocation receives that controller's signal, and a signal
    that is aborted stays so. *)
Lemma drive_frame acts :
  forall st,
    let sg := signal (abortController (this st)) in
    let '(st', t) := drive acts st in
    this st' = this st /\
    Forall (fun a => arg_signal a = sg) (calls_of t) /\
    (is_aborted sg st = true ->
     is_aborted sg st' = true /\
     Forall (fun o => o = true) (observed_aborted t)).
Proof.
  induction acts as [|[task msgs model b|] acts IH]; intros st sg.
  - cbn. repeat split; auto.
  - cbn [drive].
    pose proof (runIteration_frame task msgs model b st) as Hrun.
    cbn zeta in Hrun. fold sg in Hrun.
    destruct (runIteration task msgs model b st) as [[r st1] t1].
    destruct Hrun as [Hthis [Hab [Hsig Hobs]]].
    specialize (IH st1). cbn zeta in IH. rewrite Hthis in IH. fold sg in IH.
    destruct (drive acts st1) as [st2 t2].
    destruct IH as [Hthis2 [Hsig2 Hab2]].
    split; [exact Hthis2|]. split.
    + rewrite calls_of_app. apply Forall_app. auto.
    + intros Hst.
      assert (H1 : is_aborted sg st1 = true).
      { unfold is_aborted in *. rewrite Hab. exact Hst. }
      destruct (Hab2 H1) as [Hfin Hobs2]. split; [exact Hfin|].
      rewrite observed_aborted_app. apply Forall_app. split; [|exact Hobs2].
      rewrite Hst in Hobs. exact Hobs.
  - cbn [drive].
    specialize (IH (abort (abortController (this st)) st)).
    cbn zeta in IH. cbn [this abort] in IH. fold sg in IH.
    destruct (drive acts (abort (abortController (this st)) st))
      as [st2 t2].
    destruct IH as [Hthis2 [Hsig2 Hab2]].
    split; [exact Hthis2|]. split; [exact Hsig2|].
    intros Hst. apply Hab2. apply is_aborted_abort_mono. exact Hst.
Qed.

(** C10.  The processor's abort controller is created with the instance and
    is never replaced or reset: across everything a caller does with the
    instance, the controller stays the same object, every provider
    invocation (primary or summarization, of any runIteration) receives its
    signal, and once it has been aborted every later invocation reads the
    signal as aborted. *)
Theorem abort_controller_shared fresh acts0 acts1 acts2 st0 :
  let st := mkStore (new_AgentProcessor fresh) (aborted_signals st0)
                    (st_calls st0) (st_clock_reads st0) in
  let sg := mkAbortSignal fresh in
  let '(st1, t1) := drive (acts1 ++ [AbortNow]) (fst (drive acts0 st)) in
  let '(st2, t2) := drive acts2 st1 in
  abortController (this st1) = new_AbortController fresh /\
  abortController (this st2) = new_AbortController fresh /\
  Forall (fun a => arg_signal a = sg)
         (calls_of (snd (drive acts0 st) ++ t1 ++ t2)) /\
  Forall (fun o => o = true) (observed_aborted t2) /\
  is_aborted sg st2 = true.
Proof.
  intros st sg.
  pose proof (drive_frame acts0 st) as H0. cbn zeta in H0.
  destruct (drive acts0 st) as [sta ta]. cbn [fst snd].
  destruct H0 as [Htha [Hsiga _]].
  rewrite drive_app.
  pose proof (drive_frame acts1 sta) as H1. cbn zeta in H1.
  destruct (drive acts1 sta) as [stb tb].
  destruct H1 as [Hthb [Hsigb _]].
  cbn [drive]. rewrite app_nil_r.
  pose proof (drive_frame acts2 (abort (abortController (this stb)) stb))
    as H2.
  cbn zeta in H2. cbn [this abort] in H2.
  destruct (drive acts2 (abort (abortController (this stb)) stb))
    as [st2 t2].
  destruct H2 as [Hth2 [Hsig2 Hab2]].
  specialize (Hab2 (is_aborted_abort stb)).
  rewrite Hthb, Htha in *. cbn [this st new_AgentProcessor abortController
                                  new_AbortController signal] in *.
  split; [cbn [this abort]; rewrite Hthb; reflexivity|].
  split; [rewrite Hth2; reflexivity|].
  split; [|split].
  - rewrite !calls_of_app.
    apply Forall_app. split; [exact Hsiga|].
    apply Forall_app. split; [exact Hsigb|exact Hsig2].
  - apply Hab2.
  - apply Hab2.
Qed.

(** *** A worked run *)

(** C8.  With maxRetries = 3, a first attempt failing with code 429 and no
    retry metadata, a second failing with code 500 and a third succeeding,
    generateWithRetry waits 5 s, then 10 s, and returns the third result
    after exactly three provider invocations. *)
Theorem generateWithRetry_429_500_success args st e1 e2 r :
  service (st_calls st) = Rejected e1 ->
  effective_code e1 = Js.CNum 429 ->
  details e1 = None ->
  service (1 + st_calls st)%nat = Rejected e2 ->
  effective_code e2 = Js.CNum 500 ->
  service (2 + st_calls st)%nat = Resolved r ->
  exists tr,
    generateWithRetry args 3 st = (Ok r, after_calls st 3, tr) /\
    sleeps tr = [5 * 1000; 10 * 1000] /\
    kinds tr = [KCall; KSleep; KCall; KSleep; KCall] /\
    List.length (calls_of tr) = 3%nat.
Proof.
  intros H1 Hc1 Hd1 H2 Hc2 H3.
  assert (Hk1 : classify e1 = RateLimited)
    by (unfold classify; rewrite Hc1; reflexivity).
  assert (Hk2 : classify e2 = Transient)
    by (unfold classify; rewrite Hc2; reflexivity).
  destruct (generateWithRetry_split args 3 2 st) as [tpre [Hk [Hs Hrun]]].
  - intros i Hi. destruct i as [|[|i]]; [exists e1|exists e2|lia]; auto.
  - lia.
  - cbn [expected_waits] in Hs. rewrite H1 in Hs.
    change (S (st_calls st)) with (1 + st_calls st)%nat in Hs.
    rewrite H2 in Hs.
    unfold retry_wait, extractRetryDelay, find_RetryInfo in Hs.
    rewrite Hk1, Hk2, Hd1 in Hs.
    rewrite retry_loop_unfold in Hrun.
    change (attempt (advance_n 2 (mkLoopState 1 initial_delay)) <=? 3)
      with true in Hrun.
    cbv iota in Hrun.
    rewrite (loop_body_resolved _ _ _ _ r) in Hrun by exact H3.
    rewrite after_calls_after_calls in Hrun.
    eexists. split; [exact Hrun|].
    split; [|split].
    + rewrite sleeps_app, Hs. reflexivity.
    + rewrite kinds_app, Hk. reflexivity.
    + rewrite length_calls_kinds, kinds_app, Hk. reflexivity.
Qed.

(** *** Further properties of the retry loop *)

Lemma loop_body_retryable_line args M ls st e :
  service (st_calls st) = Rejected e ->
  retryable e = true ->
  loop_body args M ls st =
  (Ok (Continue (advance ls)), after_calls st 1,
   [EvGenerate args (is_aborted (arg_signal args) st);
    EvLog (retry_line M ls e); EvSleep (retry_wait e (delay ls))]).
Proof.
  intros H Hr.
  unfold loop_body, try_catch, bind, generateMessage, ret.
  rewrite H. cbn [on_error].
  unfold retryable, retry_wait, retry_line, classify, effective_code in *.
  destruct (Js.strict_eq_num (Js.or (code e) (status e)) 429);
    [reflexivity|].
  destruct (Js.ge_num (Js.or (code e) (status e)) 500
            && Js.lt_num (Js.or (code e) (status e)) 600);
    [reflexivity|discriminate].
Qed.

Lemma advance_n_succ n ls : advance_n (S n) ls = advance (advance_n n ls).
Proof.
  revert ls. induction n as [|n IH]; intros ls; [reflexivity|].
  change (advance_n (S (S n)) ls) with (advance_n (S n) (advance ls)).
  rewrite IH. reflexivity.
Qed.

(** How any finished run of the loop looks: some retries, each a call and
    a wait, and then either one more call (a response or a fatal failure)
    or, with no attempt left, nothing. *)
Lemma retry_loop_run args M :
  forall fuel ls st r st' t,
    (Z.to_nat (M + 1 - attempt ls) < fuel)%nat ->
    retry_loop fuel args M ls st = (r, st', t) ->
    exists n : nat,
      sleeps t = expected_waits n (st_calls st) (delay ls) /\
      (forall i, (i < n)%nat ->
                 exists e, service (i + st_calls st) = Rejected e /\
                           retryable e = true) /\
      match r with
      | Ok a =>
          kinds t = failed_attempts n ++ [KCall] /\
          attempt ls + Z.of_nat n <= M /\
          service (n + st_calls st) = Resolved a
      | Throw (ProviderCause e) =>
          kinds t = failed_attempts n ++ [KCall] /\
          attempt ls + Z.of_nat n <= M /\
          service (n + st_calls st) = Rejected e /\ classify e = Fatal
      | Throw (NewError _) =>
          kinds t = failed_attempts n /\
          Z.of_nat n = Z.max 0 (M + 1 - attempt ls)
      | OutOfFuel => False
      end.
Proof.
  clear clock.
  induction fuel as [|fuel IH]; intros ls st r st' t Hfuel Hrun; [lia|].
  rewrite retry_loop_unfold in Hrun.
  destruct (attempt ls <=? M) eqn:Hle.
  - apply Z.leb_le in Hle.
    destruct (loop_body_cases args M ls st)
      as [[a [Hs Hb]]|[[e [line [Hs [Hr Hb]]]]|[e [Hs [Hf Hb]]]]];
      rewrite Hb in Hrun.
    + inversion Hrun; subst; clear Hrun. exists O.
      split; [reflexivity|]. split; [intros; lia|].
      split; [reflexivity|]. split; [lia|exact Hs].
    + destruct (retry_loop fuel args M (advance ls) (after_calls st 1))
        as [[r1 st1] t1] eqn:Hrec.
      inversion Hrun; subst; clear Hrun.
      apply IH in Hrec; [|unfold advance; cbn [attempt]; lia].
      destruct Hrec as [n [Hsl [Hfail Hres]]]. exists (S n).
      cbn [st_calls after_calls Nat.add] in Hsl, Hfail, Hres.
      split; [|split].
      * cbn [sleeps app expected_waits]. rewrite Hs, Hsl. reflexivity.
      * intros i Hi. destruct i as [|i]; [exists e; auto|].
        destruct (Hfail i ltac:(lia)) as [e' [He' Hr']].
        exists e'. split; [|exact Hr'].
        rewrite <- He'. f_equal. lia.
      * unfold advance in Hres. cbn [attempt delay] in Hres.
        replace (S n + st_calls st)%nat with (n + S (st_calls st))%nat by lia.
        destruct r as [a|[e'|m]|]; cbn [kinds app failed_attempts];
          try exact Hres.
        -- destruct Hres as [Hk [Hb' Hs']]. rewrite Hk.
           split; [reflexivity|]. split; [lia|exact Hs'].
        -- destruct Hres as [Hk [Hb' Hs']]. rewrite Hk.
           split; [reflexivity|]. split; [lia|exact Hs'].
        -- destruct Hres as [Hk Hn]. rewrite Hk. split; [reflexivity|lia].
    + inversion Hrun; subst; clear Hrun. exists O.
      split; [reflexivity|]. split; [intros; lia|].
      split; [reflexivity|]. split; [lia|]. split; [exact Hs|exact Hf].
  - apply Z.leb_gt in Hle. inversion Hrun; subst; clear Hrun. exists O.
    split; [reflexivity|]. split; [intros; lia|].
    split; [reflexivity|]. lia.
Qed.

Lemma generateWithRetry_run args M st r st' t :
  generateWithRetry args M st = (r, st', t) ->
  exists n : nat,
    sleeps t = expected_waits n (st_calls st) initial_delay /\
    (forall i, (i < n)%nat ->
               exists e, service (i + st_calls st) = Rejected e /\
                         retryable e = true) /\
    match r with
    | Ok a =>
        kinds t = failed_attempts n ++ [KCall] /\
        Z.of_nat n < M /\
        service (n + st_calls st) = Resolved a
    | Throw (ProviderCause e) =>
        kinds t = failed_attempts n ++ [KCall] /\
        Z.of_nat n < M /\
        service (n + st_calls st) = Rejected e /\ classify e = Fatal
    | Throw (NewError _) =>
        kinds t = failed_attempts n /\ Z.of_nat n = Z.max 0 M
    | OutOfFuel => False
    end.
Proof.
  clear clock.
  intros Hrun. unfold generateWithRetry in Hrun.
  apply retry_loop_run in Hrun; [|cbn [attempt]; lia].
  destruct Hrun as [n [Hsl [Hfail Hres]]]. exists n.
  cbn [attempt delay] in Hsl, Hres.
  split; [exact Hsl|]. split; [exact Hfail|].
  destruct r as [a|[e|m]|]; try exact Hres.
  - destruct Hres as [Hk [Hb Hs]]. repeat split; try assumption; lia.
  - destruct Hres as [Hk [Hb Hs]]. repeat split; try tauto; lia.
  - destruct Hres as [Hk Hn]. split; [exact Hk|]. lia.
Qed.

Lemma nth_error_expected_waits n :
  forall k d i w,
    nth_error (expected_waits n k d) i = Some w ->
    (i < n)%nat /\
    exists e, service (i + k) = Rejected e /\
              w = retry_wait e (Nat.iter i next_delay d).
Proof.
  induction n as [|n IH]; intros k d i w H.
  - destruct i; discriminate.
  - cbn [expected_waits] in H.
    destruct (service k) as [a|e] eqn:Hs; [destruct i; discriminate|].
    destruct i as [|i].
    + inversion H; subst. split; [lia|].
      exists e. split; [exact Hs|reflexivity].
    + cbn [nth_error] in H. apply IH in H.
      destruct H as [Hi [e' [He' Hw]]]. split; [lia|].
      exists e'. split.
      * rewrite <- He'. f_equal. lia.
      * rewrite Hw. f_equal. symmetry. apply Nat.iter_succ_r.
Qed.

Lemma delay_advance_n_initial i :
  delay (advance_n i (mkLoopState 1 initial_delay)) = delay_after i.
Proof.
  rewrite delay_advance_n by (cbn; unfold initial_delay; lia). reflexivity.
Qed.

Lemma iter_next_delay i : Nat.iter i next_delay initial_delay = delay_after i.
Proof.
  rewrite <- delay_advance_n_initial.
  induction i as [|i IH]; [reflexivity|].
  rewrite delay_advance_n_succ, <- IH. reflexivity.
Qed.

Lemma delay_after_whole_seconds i : delay_after i / 1000 * 1000 = delay_after i.
Proof.
  rewrite <- delay_advance_n_initial. apply reachable_delay_exact_seconds.
Qed.

(** What a run of the loop leaves alone, and what it hands on. *)
Lemma retry_loop_frame args M :
  forall fuel ls st r st' t,
    retry_loop fuel args M ls st = (r, st', t) ->
    this st' = this st /\
    aborted_signals st' = aborted_signals st /\
    st_clock_reads st' = st_clock_reads st /\
    st_calls st' = (List.length (calls_of t) + st_calls st)%nat /\
    Forall (fun a => a = args) (calls_of t) /\
    match r with
    | Throw (NewError m) => m = max_retries_message
    | _ => True
    end.
Proof.
  clear clock.
  induction fuel as [|fuel IH]; intros ls st r st' t Hrun.
  - inversion Hrun; subst. cbn. repeat split; constructor.
  - rewrite retry_loop_unfold in Hrun.
    destruct (attempt ls <=? M);
      [|inversion Hrun; subst; cbn; repeat split; constructor].
    destruct (loop_body_cases args M ls st)
      as [[a [Hs Hb]]|[[e [line [Hs [Hr Hb]]]]|[e [Hs [Hf Hb]]]]];
      rewrite Hb in Hrun.
    + inversion Hrun; subst. cbn. repeat split; repeat constructor.
    + destruct (retry_loop fuel args M (advance ls) (after_calls st 1))
        as [[r1 st1] t1] eqn:Hrec.
      inversion Hrun; subst r1 st1 t; clear Hrun.
      apply IH in Hrec. destruct Hrec as [Ht [Ha [Hc [Hn [Hargs Hm]]]]].
      cbn [this aborted_signals st_clock_reads st_calls after_calls] in *.
      cbn [app calls_of List.length].
      split; [exact Ht|]. split; [exact Ha|]. split; [exact Hc|].
      split; [lia|]. split; [constructor; [reflexivity|exact Hargs]|].
      exact Hm.
    + inversion Hrun; subst. cbn. repeat split; repeat constructor.
Qed.

(** X1.  maxRetries counts attempts, not retries: with maxRetries <= 0
    generateWithRetry throws the exhaustion error at once, without invoking
    the provider, waiting or logging. *)
Theorem generateWithRetry_no_attempt args M st :
  M <= 0 ->
  generateWithRetry args M st =
  (Throw (NewError max_retries_message), st, []).
Proof.
  intros HM. unfold generateWithRetry. rewrite retry_loop_unfold.
  cbn [attempt].
  replace (1 <=? M) with false by (symmetry; apply Z.leb_gt; lia).
  reflexivity.
Qed.

(** X2.  Whatever the provider answers, a generateWithRetry run ends, after
    at most maxRetries provider invocations.  Its calls and waits alternate,
    starting with a call.  It returns a response, or rethrows a failure the
    code classifies as Fatal, right after the call that produced it; it
    throws the exhaustion error only after the wait that follows call number
    maxRetries. *)
Theorem generateWithRetry_run_shape args M st :
  let '(r, st', t) := generateWithRetry args M st in
  exists n : nat,
    List.length (sleeps t) = n /\
    Z.of_nat (List.length (calls_of t)) <= Z.max 0 M /\
    st_calls st' = (List.length (calls_of t) + st_calls st)%nat /\
    match r with
    | Ok a =>
        kinds t = failed_attempts n ++ [KCall] /\
        service (n + st_calls st) = Resolved a
    | Throw (ProviderCause e) =>
        kinds t = failed_attempts n ++ [KCall] /\
        service (n + st_calls st) = Rejected e /\ classify e = Fatal
    | Throw (NewError m) =>
        kinds t = failed_attempts n /\
        Z.of_nat n = Z.max 0 M /\ m = max_retries_message
    | OutOfFuel => False
    end.
Proof.
  clear clock.
  destruct (generateWithRetry args M st) as [[r st'] t] eqn:Hrun.
  destruct (retry_loop_frame _ _ _ _ _ _ _ _ Hrun)
    as [_ [_ [_ [Hcalls [_ Hmsg]]]]].
  destruct (generateWithRetry_run _ _ _ _ _ _ Hrun) as [n [_ [_ Hshape]]].
  exists n.
  destruct (count_failed_attempts n) as [Hc Hs].
  assert (Hlen : forall k, kinds t = k ->
                   List.length (sleeps t) = count_occ Kind_eq_dec k KSleep /\
                   List.length (calls_of t) = count_occ Kind_eq_dec k KCall).
  { intros k <-. split; [apply length_sleeps_kinds|apply length_calls_kinds]. }
  destruct r as [a|[e|m]|]; [| | |contradiction].
  - destruct Hshape as [Hk [Hn Hsv]]. destruct (Hlen _ Hk) as [Hl1 Hl2].
    rewrite count_occ_app, ?Hs, ?Hc in Hl1, Hl2. cbn in Hl1, Hl2.
    repeat split; try assumption; lia.
  - destruct Hshape as [Hk [Hn [Hsv Hf]]]. destruct (Hlen _ Hk) as [Hl1 Hl2].
    rewrite count_occ_app, ?Hs, ?Hc in Hl1, Hl2. cbn in Hl1, Hl2.
    repeat split; try assumption; lia.
  - destruct Hshape as [Hk Hn]. destruct (Hlen _ Hk) as [Hl1 Hl2].
    rewrite ?Hs, ?Hc in Hl1, Hl2.
    repeat split; try assumption; lia.
Qed.

(** X3.  The i-th wait (from 0) of any generateWithRetry run follows the
    failure of attempt i+1.  After a Transient failure it lasts
    min(5000 * 2^i, 60000) ms, whatever the earlier failures were; after a
    RateLimited failure it lasts the parsed retry delay in seconds when
    that is a non-zero number, and min(5000 * 2^i, 60000) ms otherwise. *)
Theorem generateWithRetry_wait_schedule args M st i w :
  nth_error (sleeps (snd (generateWithRetry args M st))) i = Some w ->
  exists e,
    service (i + st_calls st) = Rejected e /\
    match classify e with
    | Transient => w = delay_after i
    | RateLimited =>
        match extractRetryDelay e with
        | Some secs => if secs =? 0 then w = delay_after i else w = secs * 1000
        | None => w = delay_after i
        end
    | Fatal => False
    end.
Proof.
  destruct (generateWithRetry args M st) as [[r st'] t] eqn:Hrun.
  cbn [snd]. intros Hw.
  destruct (generateWithRetry_run _ _ _ _ _ _ Hrun) as [n [Hsl [Hfail _]]].
  rewrite Hsl in Hw. apply nth_error_expected_waits in Hw.
  destruct Hw as [Hi [e [He Hw]]]. exists e. split; [exact He|].
  destruct (Hfail i Hi) as [e' [He' Hr]].
  rewrite He in He'. inversion He'; subst e'. clear He'.
  rewrite iter_next_delay in Hw. unfold retry_wait in Hw.
  unfold retryable in Hr.
  destruct (classify e); [|exact Hw|discriminate].
  unfold Js.or_num in Hw.
  destruct (extractRetryDelay e) as [secs|].
  - destruct (secs =? 0); [|exact Hw].
    rewrite Hw. apply delay_after_whole_seconds.
  - rewrite Hw. apply delay_after_whole_seconds.
Qed.

Lemma retry_loop_warns args M :
  forall fuel k st r st' t,
    retry_loop fuel args M (advance_n k (mkLoopState 1 initial_delay)) st
    = (r, st', t) ->
    warns_announce_waits (1 + Z.of_nat k) M t = true.
Proof.
  clear clock.
  induction fuel as [|fuel IH]; intros k st r st' t Hrun.
  - inversion Hrun. reflexivity.
  - rewrite retry_loop_unfold in Hrun.
    set (ls := advance_n k (mkLoopState 1 initial_delay)) in *.
    destruct (attempt ls <=? M); [|inversion Hrun; reflexivity].
    destruct (loop_body_cases args M ls st)
      as [[a [Hs Hb]]|[[e [line [Hs [Hr _]]]]|[e [Hs [Hf Hb]]]]].
    + rewrite Hb in Hrun. inversion Hrun. reflexivity.
    + rewrite (loop_body_retryable_line args M ls st e Hs Hr) in Hrun.
      destruct (retry_loop fuel args M (advance ls) (after_calls st 1))
        as [[r1 st1] t1] eqn:Hrec.
      inversion Hrun; subst r1 st1 t; clear Hrun.
      unfold ls in Hrec. rewrite <- advance_n_succ in Hrec.
      apply IH in Hrec.
      assert (Hatt : attempt ls = 1 + Z.of_nat k)
        by (unfold ls; rewrite attempt_advance_n; reflexivity).
      assert (Hsec : delay ls / 1000 * 1000 = delay ls)
        by (apply reachable_delay_exact_seconds).
      replace (1 + Z.of_nat (S k)) with (1 + Z.of_nat k + 1) in Hrec by lia.
      cbn [app warns_announce_waits].
      unfold retry_line, retry_wait. unfold retryable in Hr.
      destruct (classify e); [| |discriminate];
        rewrite Hatt, Hrec, ?Hsec, !Z.eqb_refl; reflexivity.
    + rewrite Hb in Hrun. inversion Hrun. reflexivity.
Qed.

(** X4.  The warn lines of a generateWithRetry run tell the truth: each is
    followed at once by a wait of exactly 1000 times the seconds it reports,
    they number the attempts 1, 2, ... out of maxRetries, and no wait
    happens without such a line before it. *)
Theorem generateWithRetry_warns_announce_waits args M st :
  warns_announce_waits 1 M (snd (generateWithRetry args M st)) = true.
Proof.
  destruct (generateWithRetry args M st) as [[r st'] t] eqn:Hrun.
  unfold generateWithRetry in Hrun.
  apply (retry_loop_warns args M _ O) in Hrun. exact Hrun.
Qed.

(** X5.  generateWithRetry hands its own arguments, unchanged, to every
    attempt, and touches nothing else: the processor's fields, the aborted
    signals and the clock are as before, and the provider has been invoked
    once per call of the trace. *)
Theorem generateWithRetry_forwards_arguments args M st :
  let '(r, st', t) := generateWithRetry args M st in
  calls_of t = repeat args (List.length (calls_of t)) /\
  this st' = this st /\
  aborted_signals st' = aborted_signals st /\
  st_clock_reads st' = st_clock_reads st /\
  st_calls st' = (List.length (calls_of t) + st_calls st)%nat.
Proof.
  clear clock.
  destruct (generateWithRetry args M st) as [[r st'] t] eqn:Hrun.
  destruct (retry_loop_frame _ _ _ _ _ _ _ _ Hrun)
    as [Ht [Ha [Hc [Hn [Hargs _]]]]].
  split; [apply Forall_eq_repeat; exact Hargs|]. auto.
Qed.

(** *** Further properties of [extractRetryDelay] and of the classification *)

Lemma find_first_match {A} (f : A -> bool) (pre : list A) d post :
  forallb (fun x => negb (f x)) pre = true ->
  f d = true ->
  List.find f (pre ++ d :: post) = Some d.
Proof.
  intros Hpre Hd. induction pre as [|x pre IH]; simpl.
  - rewrite Hd. reflexivity.
  - simpl in Hpre. apply andb_true_iff in Hpre.
    destruct Hpre as [Hx Hpre]. destruct (f x); [discriminate|].
    apply IH. exact Hpre.
Qed.

(** X6.  Only the first RetryInfo entry of [details] counts: entries of
    other types before it are skipped and everything after it is ignored,
    also when that first entry holds no usable delay and a later one does. *)
Theorem extractRetryDelay_first_RetryInfo e pre d post :
  details e = Some (pre ++ d :: post) ->
  forallb (fun x => negb (is_RetryInfo x)) pre = true ->
  is_RetryInfo d = true ->
  find_RetryInfo e = Some d /\
  extractRetryDelay e = extractRetryDelay (with_details e (Some [d])).
Proof.
  intros Hd Hpre Hri.
  assert (Hfind : find_RetryInfo e = Some d).
  { unfold find_RetryInfo. rewrite Hd.
    apply find_first_match; assumption. }
  split; [exact Hfind|].
  unfold extractRetryDelay. rewrite Hfind.
  unfold find_RetryInfo, with_details. cbn [details List.find].
  rewrite Hri. reflexivity.
Qed.

Lemma read_digits_stops u c rest :
  Js.digit_value c = None ->
  forall acc,
    Js.read_digits (NilEmpty.string_of_uint u ++ String c rest)%string acc =
    Js.read_digits (NilEmpty.string_of_uint u) acc.
Proof.
  intros Hc. induction u; intros acc;
    cbn [NilEmpty.string_of_uint String.append Js.read_digits];
    try (rewrite Hc; reflexivity);
    eval_digit_value; cbv iota; apply IHu.
Qed.

Lemma replace_first_s_after_digits u tail :
  Js.replace_first_s (NilEmpty.string_of_uint u ++ tail)%string =
  (NilEmpty.string_of_uint u ++ Js.replace_first_s tail)%string.
Proof.
  induction u; cbn; rewrite ?IHu; reflexivity.
Qed.

Lemma parseInt10_leading_digit u tail :
  u <> Nil ->
  Js.parseInt10 (NilEmpty.string_of_uint u ++ tail)%string =
  Js.read_digits (NilEmpty.string_of_uint u ++ tail)%string None.
Proof.
  intros Hu. destruct u; [congruence| ..]; reflexivity.
Qed.

Lemma digits_then_text_nonempty u tail :
  u <> Nil -> (NilEmpty.string_of_uint u ++ tail)%string <> "".
Proof.
  destruct u; [congruence| ..]; discriminate.
Qed.

(** X7.  Whatever follows the leading digits of a retry delay is ignored,
    unit and fraction included, when it starts with a character that is
    neither a digit nor [s]: [3.5s] is read as 3 seconds and [2m] as 2
    seconds. *)
Theorem extractRetryDelay_ignores_trailing_text e det u c rest :
  find_RetryInfo e = Some det ->
  retryDelay det = Some (NilEmpty.string_of_uint u ++ String c rest)%string ->
  u <> Nil ->
  Js.digit_value c = None ->
  c <> "s"%char ->
  extractRetryDelay e = Some (Z.of_N (N.of_uint u)).
Proof.
  intros Hfind Hrd Hu Hc Hs. unfold extractRetryDelay. rewrite Hfind, Hrd.
  destruct (String.eqb_spec
              (NilEmpty.string_of_uint u ++ String c rest)%string "")
    as [Hempty|_].
  - exfalso. exact (digits_then_text_nonempty u _ Hu Hempty).
  - rewrite replace_first_s_after_digits. cbn [Js.replace_first_s].
    destruct (Ascii.eqb_spec c "s"%char) as [Heq|_]; [contradiction|].
    rewrite parseInt10_leading_digit by exact Hu.
    rewrite read_digits_stops by exact Hc.
    apply read_digits_of_uint. exact Hu.
Qed.

(** X8.  A retry delay written with a minus sign is read as a negative
    number of seconds, so after such a 429 failure the loop calls [sleep]
    with a negative number of milliseconds. *)
Theorem negative_retry_delay_is_slept args M ls st e det u :
  service (st_calls st) = Rejected e ->
  classify e = RateLimited ->
  find_RetryInfo e = Some det ->
  retryDelay det = Some ("-" ++ NilEmpty.string_of_uint u ++ "s")%string ->
  N.of_uint u <> 0%N ->
  extractRetryDelay e = Some (- Z.of_N (N.of_uint u)) /\
  sleeps (snd (loop_body args M ls st)) = [- Z.of_N (N.of_uint u) * 1000].
Proof.
  intros He Hc Hfind Hrd Hnz.
  assert (Hu : u <> Nil) by (intros ->; apply Hnz; reflexivity).
  assert (Hex : extractRetryDelay e = Some (- Z.of_N (N.of_uint u))).
  { unfold extractRetryDelay. rewrite Hfind, Hrd.
    cbn [String.append String.eqb Js.replace_first_s]. cbn [Ascii.eqb Bool.eqb].
    cbv iota. rewrite replace_first_s_digits.
    unfold Js.parseInt10. cbn [Js.trim_start].
    change (Js.is_white_space "-") with false. cbv iota.
    rewrite read_digits_of_uint by exact Hu. reflexivity. }
  split; [exact Hex|].
  rewrite (loop_body_retryable_line args M ls st e He)
    by (apply retryable_iff; left; exact Hc).
  cbn [snd sleeps]. unfold retry_wait. rewrite Hc, Hex. unfold Js.or_num.
  destruct (Z.eqb_spec (- Z.of_N (N.of_uint u)) 0) as [H0|_]; [lia|].
  reflexivity.
Qed.

(** X9.  A truthy [code] hides [status].  If the failure of the first
    attempt has a [code] that is a non-numeric value, or a number other than
    0 and 429 outside [500, 600), generateWithRetry rethrows it after that
    single call, without waiting, whatever its [status] is (429 and 503
    included). *)
Theorem generateWithRetry_code_hides_status args M st e :
  1 <= M ->
  service (st_calls st) = Rejected e ->
  (code e = Js.COther \/
   exists c, code e = Js.CNum c /\ c <> 0 /\ c <> 429 /\ ~ 500 <= c < 600) ->
  generateWithRetry args M st =
  (Throw (ProviderCause e), after_calls st 1,
   [EvGenerate args (is_aborted (arg_signal args) st);
    EvLog (ErrorFatal (ProviderCause e))]).
Proof.
  intros HM He Hcode.
  assert (Hf : classify e = Fatal).
  { unfold classify, effective_code, Js.or.
    destruct Hcode as [-> | [c [-> [H0 [H429 H5]]]]]; [reflexivity|].
    cbn [Js.truthy].
    destruct (Z.eqb_spec c 0) as [|_]; [contradiction|]. cbn [negb].
    cbn [Js.strict_eq_num Js.ge_num Js.lt_num].
    destruct (Z.eqb_spec c 429) as [|_]; [contradiction|].
    destruct (Z.leb_spec 500 c); destruct (Z.ltb_spec c 600);
      cbn [andb]; try reflexivity. lia. }
  unfold generateWithRetry. rewrite retry_loop_unfold. cbn [attempt].
  replace (1 <=? M) with true by (symmetry; apply Z.leb_le; exact HM).
  rewrite (loop_body_fatal _ _ _ _ e He Hf). reflexivity.
Qed.

(** X10.  [status] is consulted only when [code] is missing or 0: then a
    [status] of 429 or in [500, 600) makes the failure retryable, so that
    with attempts left the loop waits and goes on. *)
Theorem status_decides_without_code args M ls st e s :
  service (st_calls st) = Rejected e ->
  code e = Js.CAbsent \/ code e = Js.CNum 0 ->
  status e = Js.CNum s ->
  s = 429 \/ 500 <= s < 600 ->
  classify e = (if s =? 429 then RateLimited else Transient) /\
  exists t,
    loop_body args M ls st = (Ok (Continue (advance ls)), after_calls st 1, t).
Proof.
  intros He Hcode Hst Hs.
  assert (Hc : classify e = (if s =? 429 then RateLimited else Transient)).
  { unfold classify, effective_code, Js.or.
    destruct Hcode as [-> | ->]; cbn [Js.truthy Z.eqb negb]; rewrite Hst;
      cbn [Js.strict_eq_num Js.ge_num Js.lt_num];
      (destruct (Z.eqb_spec s 429); [reflexivity|]);
      (destruct Hs as [Hs|Hs]; [contradiction|]);
      (replace (500 <=? s) with true by (symmetry; apply Z.leb_le; lia));
      (replace (s <? 600) with true by (symmetry; apply Z.ltb_lt; lia));
      reflexivity. }
  split; [exact Hc|].
  eexists. apply loop_body_retryable_line; [exact He|].
  unfold retryable. rewrite Hc. destruct (s =? 429); reflexivity.
Qed.

(** *** Further properties of [runIteration] *)

Lemma completed_lines_app t1 t2 :
  completed_lines (t1 ++ t2) = completed_lines t1 ++ completed_lines t2.
Proof.
  induction t1 as [|[a o|ms|[]] t1 IH]; simpl; rewrite ?IH; reflexivity.
Qed.

Lemma error_lines_app t1 t2 :
  error_lines (t1 ++ t2) = error_lines t1 ++ error_lines t2.
Proof.
  induction t1 as [|[a o|ms|[]] t1 IH]; simpl; rewrite ?IH; reflexivity.
Qed.

(** The log lines of an executor run: warn lines, and one error line
    exactly when a provider failure is rethrown. *)
Lemma retry_loop_log_lines args M :
  forall fuel ls st r st' t,
    retry_loop fuel args M ls st = (r, st', t) ->
    completed_lines t = [] /\
    error_lines t =
    match r with
    | Throw (ProviderCause e) => [ProviderCause e]
    | _ => []
    end.
Proof.
  induction fuel as [|fuel IH]; intros ls st r st' t Hrun.
  - inversion Hrun. split; reflexivity.
  - rewrite retry_loop_unfold in Hrun.
    destruct (attempt ls <=? M); [|inversion Hrun; split; reflexivity].
    destruct (loop_body_cases args M ls st)
      as [[a [Hs Hb]]|[[e [line [Hs [Hr _]]]]|[e [Hs [Hf Hb]]]]].
    + rewrite Hb in Hrun. inversion Hrun. split; reflexivity.
    + rewrite (loop_body_retryable_line args M ls st e Hs Hr) in Hrun.
      destruct (retry_loop fuel args M (advance ls) (after_calls st 1))
        as [[r1 st1] t1] eqn:Hrec.
      inversion Hrun; subst r1 st1 t; clear Hrun.
      apply IH in Hrec. destruct Hrec as [Hc He].
      unfold retry_line. cbn [app].
      destruct (classify e); cbn [completed_lines error_lines]; auto.
    + rewrite Hb in Hrun. inversion Hrun. split; reflexivity.
Qed.

(** X11.  The log of runIteration opens with the processing line.  The
    completion line is logged, last, exactly when runIteration returns
    normally.  An error-level line is logged exactly when a provider
    failure is rethrown; the exhaustion error is thrown without one. *)
Theorem runIteration_log_lines task msgs model b st :
  let '(r, _, t) := runIteration task msgs model b st in
  hd_error t = Some (EvLog (LogProcessing task (name model))) /\
  completed_lines t = match r with Ok _ => [task] | _ => [] end /\
  error_lines t =
  match r with
  | Throw (ProviderCause e) => [ProviderCause e]
  | _ => []
  end /\
  match r with
  | Ok _ => exists t0, t = t0 ++ [EvLog (LogCompleted task)]
  | _ => True
  end.
Proof.
  rewrite runIteration_unfold. cbn zeta.
  destruct (generateWithRetry _ default_maxRetries st)
    as [[r1 st1] t1] eqn:H1.
  destruct (retry_loop_log_lines _ _ _ _ _ _ _ _ H1) as [Hc1 He1].
  destruct r1 as [a1|x1|].
  - destruct b.
    + destruct (generateWithRetry _ default_maxRetries (after_dates st1))
        as [[r2 st2] t2] eqn:H2.
      destruct (retry_loop_log_lines _ _ _ _ _ _ _ _ H2) as [Hc2 He2].
      destruct r2 as [a2|x2|]; cbn [hd_error completed_lines error_lines];
        rewrite ?completed_lines_app, ?error_lines_app, Hc1, He1, Hc2, He2;
        (split; [reflexivity|]); (split; [reflexivity|]).
      * split; [reflexivity|].
        exists (EvLog (LogProcessing task (name model)) :: t1 ++ t2).
        cbn [app]. rewrite app_assoc. reflexivity.
      * split; [|exact I]. destruct x2; reflexivity.
      * split; [reflexivity|exact I].
    + cbn [hd_error completed_lines error_lines].
      rewrite ?completed_lines_app, ?error_lines_app, Hc1, He1.
      split; [reflexivity|]. split; [reflexivity|]. split; [reflexivity|].
      exists (EvLog (LogProcessing task (name model)) :: t1). reflexivity.
  - cbn [hd_error completed_lines error_lines]. rewrite Hc1, He1.
    split; [reflexivity|]. split; [reflexivity|].
    split; [|exact I]. destruct x1; reflexivity.
  - cbn [hd_error completed_lines error_lines]. rewrite Hc1, He1.
    repeat split.
Qed.

(** X12.  runIteration neither changes the processor's fields nor aborts
    anything.  It reads the clock twice when it summarizes (shouldSummarize
    and a successful primary run) and not at all otherwise; the synthetic
    message sent with every summarization attempt carries the first of
    these reads as createdAt and the second as updatedAt. *)
Theorem runIteration_store_and_clock task msgs model b st :
  let '(r1, _, _) :=
    generateWithRetry (primary_args (this st) msgs model)
                      default_maxRetries st in
  let '(r, st', t) := runIteration task msgs model b st in
  let summarizes := match r1 with Ok _ => b | _ => false end in
  this st' = this st /\
  aborted_signals st' = aborted_signals st /\
  st_calls st' = (List.length (calls_of t) + st_calls st)%nat /\
  st_clock_reads st' =
  ((if summarizes then 2 else 0) + st_clock_reads st)%nat /\
  Forall (fun a =>
            a = primary_args (this st) msgs model \/
            summarizes = true /\
            a = summary_args (this st) task msgs model
                             (clock (st_clock_reads st))
                             (clock (S (st_clock_reads st))))
         (calls_of t).
Proof.
  rewrite runIteration_unfold. cbn zeta.
  destruct (generateWithRetry _ default_maxRetries st)
    as [[r1 st1] t1] eqn:H1.
  pose proof (generateWithRetry_facts _ _ _ _ _ _ H1) as F1.
  destruct F1 as [Ht1 Ha1 Hc1 Hn1 Hargs1 _ _ _ _].
  assert (Hp : Forall (fun a =>
                         a = primary_args (this st) msgs model \/
                         true = true /\
                         a = summary_args (this st) task msgs model
                               (clock (st_clock_reads st))
                               (clock (S (st_clock_reads st))))
                      (calls_of t1)).
  { eapply Forall_impl; [|exact Hargs1]. intros a Ha. left. exact Ha. }
  assert (Hp' : forall f : bool,
             Forall (fun a =>
                       a = primary_args (this st) msgs model \/
                       f = true /\
                       a = summary_args (this st) task msgs model
                             (clock (st_clock_reads st))
                             (clock (S (st_clock_reads st))))
                    (calls_of t1)).
  { intros f. eapply Forall_impl; [|exact Hargs1]. intros a Ha. left.
    exact Ha. }
  destruct r1 as [a1|x1|]; cbn [calls_of]; try (repeat split; auto; fail).
  destruct b.
  - destruct (generateWithRetry _ default_maxRetries (after_dates st1))
      as [[r2 st2] t2] eqn:H2.
    pose proof (generateWithRetry_facts _ _ _ _ _ _ H2) as F2.
    destruct F2 as [Ht2 Ha2 Hc2 Hn2 Hargs2 _ _ _ _].
    cbn [this aborted_signals st_calls st_clock_reads after_dates] in *.
    rewrite Ht1, Hc1 in Hargs2.
    assert (Hall : this st2 = this st /\
                   aborted_signals st2 = aborted_signals st /\
                   st_calls st2 =
                   (List.length (calls_of (t1 ++ t2)) + st_calls st)%nat /\
                   st_clock_reads st2 = (2 + st_clock_reads st)%nat /\
                   Forall (fun a =>
                             a = primary_args (this st) msgs model \/
                             true = true /\
                             a = summary_args (this st) task msgs model
                                   (clock (st_clock_reads st))
                                   (clock (S (st_clock_reads st))))
                          (calls_of (t1 ++ t2))).
    { rewrite calls_of_app, length_app.
      split; [congruence|]. split; [congruence|]. split; [lia|].
      split; [lia|]. apply Forall_app. split; [exact Hp|].
      eapply Forall_impl; [|exact Hargs2]. intros a Ha. right. auto. }
    destruct r2 as [a2|x2|]; cbn [calls_of]; try exact Hall.
    rewrite app_assoc, calls_of_app. cbn [calls_of]. rewrite app_nil_r.
    exact Hall.
  - cbn [calls_of]. rewrite calls_of_app. cbn [calls_of].
    rewrite app_nil_r. repeat split; auto.
Qed.

(** X13.  The backoff starts again for the summarization run: the waits of
    runIteration are those of the primary run followed by those of the
    summarization run, and the i-th wait of the latter after a Transient
    failure lasts min(5000 * 2^i, 60000) ms, however many retries the
    primary run needed. *)
Theorem runIteration_backoff_restarts task msgs model b st :
  let '(r1, st1, t1) :=
    generateWithRetry (primary_args (this st) msgs model)
                      default_maxRetries st in
  let t := snd (runIteration task msgs model b st) in
  match r1, b with
  | Ok _, true =>
      exists w2,
        sleeps t = sleeps t1 ++ w2 /\
        forall i w,
          nth_error w2 i = Some w ->
          exists e,
            service (i + st_calls st1) = Rejected e /\
            (classify e = Transient -> w = delay_after i)
  | _, _ => sleeps t = sleeps t1
  end.
Proof.
  rewrite runIteration_unfold. cbn zeta.
  destruct (generateWithRetry _ default_maxRetries st)
    as [[r1 st1] t1] eqn:H1.
  destruct r1 as [a1|x1|]; try (destruct b; reflexivity).
  destruct b.
  - destruct (generateWithRetry _ default_maxRetries (after_dates st1))
      as [[r2 st2] t2] eqn:H2.
    destruct (generateWithRetry_run _ _ _ _ _ _ H2) as [n [Hsl _]].
    cbn [st_calls after_dates] in Hsl.
    exists (sleeps t2). split.
    + destruct r2 as [a2|x2|]; cbn [snd sleeps];
        rewrite ?sleeps_app; cbn [sleeps]; rewrite ?app_nil_r; reflexivity.
    + intros i w Hw. rewrite Hsl in Hw.
      apply nth_error_expected_waits in Hw.
      destruct Hw as [_ [e [He Hw]]]. exists e. split; [exact He|].
      intros Hc. rewrite Hw, iter_next_delay. unfold retry_wait.
      rewrite Hc. reflexivity.
  - cbn [snd sleeps]. rewrite sleeps_app. cbn [sleeps]. apply app_nil_r.
Qed.

Lemma delay_after_bounds i : 5000 <= delay_after i <= 60000.
Proof.
  unfold delay_after.
  assert (1 <= 2 ^ Z.of_nat i)
    by (change 1 with (2 ^ 0); apply Z.pow_le_mono_r; lia).
  lia.
Qed.

Lemma sum_bounded (l : list Z) (hi : Z) :
  Forall (fun w => w <= hi) l ->
  fold_right Z.add 0 l <= hi * Z.of_nat (List.length l).
Proof.
  induction 1 as [|w l Hw _ IH]; cbn [fold_right List.length]; [lia|].
  rewrite Nat2Z.inj_succ. lia.
Qed.

(** X14.  When no RateLimited failure carries a retry delay that parses to
    a non-zero number, every wait of a generateWithRetry run lasts between
    5000 and 60000 ms, and the run sleeps at most 60000 * maxRetries ms in
    total. *)
Theorem generateWithRetry_total_wait_bound args M st :
  (forall k e, service k = Rejected e ->
               extractRetryDelay e = None \/ extractRetryDelay e = Some 0) ->
  let waits := sleeps (snd (generateWithRetry args M st)) in
  Forall (fun w => 5000 <= w <= 60000) waits /\
  fold_right Z.add 0 waits <= 60000 * Z.max 0 M.
Proof.
  clear clock.
  intros Hmeta waits. subst waits.
  destruct (generateWithRetry args M st) as [[r st'] t] eqn:Hrun.
  cbn [snd].
  destruct (generateWithRetry_run _ _ _ _ _ _ Hrun) as [n [Hsl [Hfail Hres]]].
  assert (Hall : Forall (fun w => 5000 <= w <= 60000) (sleeps t)).
  { apply Forall_forall. intros w Hin.
    apply In_nth_error in Hin. destruct Hin as [i Hi].
    rewrite Hsl in Hi. apply nth_error_expected_waits in Hi.
    destruct Hi as [_ [e [He Hw]]].
    rewrite iter_next_delay in Hw. unfold retry_wait in Hw.
    pose proof (delay_after_bounds i) as Hb.
    destruct (classify e); try (rewrite Hw; exact Hb).
    unfold Js.or_num in Hw.
    destruct (Hmeta _ _ He) as [Hx|Hx]; rewrite Hx in Hw; cbn in Hw;
      rewrite delay_after_whole_seconds in Hw; rewrite Hw; exact Hb. }
  split; [exact Hall|].
  assert (Hlen : Z.of_nat (List.length (sleeps t)) <= Z.max 0 M).
  { rewrite length_sleeps_kinds.
    destruct (count_failed_attempts n) as [_ Hs].
    destruct r as [a|[e|m]|]; [| | |contradiction].
    - destruct Hres as [Hk [Hn _]]. rewrite Hk, count_occ_app, Hs. cbn. lia.
    - destruct Hres as [Hk [Hn _]]. rewrite Hk, count_occ_app, Hs. cbn. lia.
    - destruct Hres as [Hk Hn]. rewrite Hk, Hs. lia. }
  assert (Hsum : fold_right Z.add 0 (sleeps t)
                 <= 60000 * Z.of_nat (List.length (sleeps t))).
  { apply sum_bounded. eapply Forall_impl; [|exact Hall].
    intros w Hw. cbn beta in Hw. lia. }
  lia.
Qed.

End Processor.


(** ** Concrete runs *)

Arguments Resolved {Response} r.
Arguments Rejected {Response} error.
Arguments Ok {A} a.
Arguments Throw {A} x.
Arguments Continue {Response} ls.
Arguments script {Response} answers otherwise _.
Arguments mkGenerateArgs {Role MessageContentType}.
Arguments EvGenerate {Role MessageContentType}.
Arguments EvLog {Role MessageContentType}.
Arguments EvSleep {Role MessageContentType}.
Arguments generateWithRetry {Response Role MessageContentType}.
Arguments loop_body {Response Role MessageContentType}.
Arguments loop_reaches {Response Role MessageContentType}.
Arguments runIteration {Response Role} Role_USER {MessageContentType}.
Arguments kinds {Role MessageContentType}.
Arguments sleeps {Role MessageContentType}.
Arguments calls_of {Role MessageContentType}.

(** In the runs below responses are strings, and so are the members of the
    two enumerations, as they are at run time. *)
Abbreviation sample_args :=
  (@mkGenerateArgs string string "system prompt" [] "model" true
                   (mkAbortSignal 0)).

Abbreviation always_500 := (fun _ : nat => @Rejected string error_500).

Abbreviation sample_iteration svc b :=
  (@runIteration string string "user" string "text"
                 "agent prompt" "summary prompt" svc (fun _ => 0)
                 "task-1" [] (mkModel "model") b fresh_store).

Example classify_code_wins_over_status :
  classify (mkProviderError (Js.CNum 400) (Js.CNum 429) None None) = Fatal.
Proof. reflexivity. Qed.

Example classify_symbolic_code :
  classify (mkProviderError Js.COther (Js.CNum 429) None None) = Fatal.
Proof. reflexivity. Qed.

Example classify_status_fallback :
  classify (mkProviderError (Js.CNum 0) (Js.CNum 503) None None) = Transient.
Proof. reflexivity. Qed.

Example extract_3s : extractRetryDelay (error_with_delay "3s") = Some 3.
Proof. reflexivity. Qed.

Example extract_abc : extractRetryDelay (error_with_delay "abc") = None.
Proof. reflexivity. Qed.

Example extract_leading_zeros :
  extractRetryDelay (error_with_delay "007s") = Some 7.
Proof. reflexivity. Qed.

(** The second example of the specification: maxRetries = 2 and two 500
    failures end in the exhaustion error after two invocations. *)
Example exhausted_after_two :
  let '(r, st, t) := generateWithRetry always_500 sample_args 2 fresh_store in
  r = Throw (NewError "Max retries reached for LLM call") /\
  st_calls st = 2%nat /\
  kinds t = [KCall; KSleep; KCall; KSleep] /\
  sleeps t = [5000; 10000].
Proof. vm_compute. repeat split. Qed.

(** Ten transient failures: the waits double up to the cap. *)
Example waits_of_ten_failures :
  sleeps (snd (generateWithRetry always_500 sample_args 10 fresh_store)) =
  [5000; 10000; 20000; 40000; 60000; 60000; 60000; 60000; 60000; 60000].
Proof. vm_compute. reflexivity. Qed.

Lemma generateWithRetry_returns_first_success_witness :
  exists tr,
    generateWithRetry
      (script [Rejected error_429; Rejected error_500; Resolved "done"]
              (Resolved "late"))
      sample_args 3 fresh_store
    = (Ok "done", after_calls fresh_store 3, tr) /\
    kinds tr = failed_attempts (3 - 1) ++ [KCall] /\
    List.length (sleeps tr) = (3 - 1)%nat /\
    List.length (calls_of tr) = 3%nat.
Proof.
  apply (generateWithRetry_returns_first_success string string string
           (script [Rejected error_429; Rejected error_500; Resolved "done"]
                   (Resolved "late"))
           sample_args 3 3 "done" fresh_store).
  - lia.
  - lia.
  - intros i Hi. destruct i as [|[|i]]; [exists error_429|exists error_500|lia];
      (split; [reflexivity|]); [left|right]; reflexivity.
  - reflexivity.
Defined.

Lemma generateWithRetry_retries_exhausted_witness :
  exists st' tr,
    generateWithRetry always_500 sample_args 2 fresh_store =
    (Throw (NewError max_retries_message), st', tr) /\
    List.length (calls_of tr) = Z.to_nat 2 /\
    st_calls st' = (Z.to_nat 2 + st_calls fresh_store)%nat /\
    (forall e, NewError max_retries_message <> ProviderCause e).
Proof.
  apply (generateWithRetry_retries_exhausted string string string
           always_500 sample_args 2 fresh_store).
  - lia.
  - intros i _. exists error_500. split; [reflexivity|right; reflexivity].
Defined.

Lemma generateWithRetry_fatal_stops_witness :
  exists tr,
    generateWithRetry
      (script [Rejected error_500; Rejected error_401] (Resolved "late"))
      sample_args 3 fresh_store
    = (Throw (ProviderCause error_401), after_calls fresh_store 2, tr) /\
    kinds tr = failed_attempts (2 - 1) ++ [KCall] /\
    List.length (calls_of tr) = 2%nat /\
    List.length (sleeps tr) = (2 - 1)%nat.
Proof.
  apply (generateWithRetry_fatal_stops string string string
           (script [Rejected error_500; Rejected error_401] (Resolved "late"))
           sample_args 3 2 error_401 fresh_store).
  - lia.
  - lia.
  - intros i Hi. destruct i as [|i]; [|lia].
    exists error_500. split; [reflexivity|right; reflexivity].
  - reflexivity.
  - reflexivity.
Defined.

Lemma generateWithRetry_sleeps_before_exhaustion_witness :
  exists st' tr,
    generateWithRetry always_500 sample_args 2 fresh_store =
    (Throw (NewError max_retries_message), st', tr) /\
    List.length (sleeps tr) = Z.to_nat 2 /\
    kinds tr = failed_attempts (Z.to_nat 2 - 1) ++ [KCall; KSleep] /\
    sleeps tr =
    expected_waits string always_500 (Z.to_nat 2) (st_calls fresh_store)
                   initial_delay.
Proof.
  apply (generateWithRetry_sleeps_before_exhaustion string string string
           always_500 sample_args 2 fresh_store).
  - lia.
  - intros i _. exists error_500. split; [reflexivity|right; reflexivity].
Defined.

Lemma backoff_delay_invariant_witness :
  loop_reaches always_500 sample_args 3 (mkLoopState 1 initial_delay)
               fresh_store 2 (mkLoopState 3 20000)
               (after_calls fresh_store 2) /\
  delay (mkLoopState 3 20000) = Z.min (5000 * 2 ^ Z.of_nat 2) 60000 /\
  5000 <= delay (mkLoopState 3 20000) <= 60000.
Proof.
  assert (H : loop_reaches always_500 sample_args 3
                           (mkLoopState 1 initial_delay) fresh_store 2
                           (mkLoopState 3 20000) (after_calls fresh_store 2)).
  { eapply reaches_continue;
      [eapply reaches_continue; [apply reaches_start|cbn; lia|reflexivity]
      |cbn; lia|reflexivity]. }
  split; [exact H|].
  pose proof (backoff_delay_invariant string string string always_500
                sample_args 3 fresh_store 2 (mkLoopState 3 20000)
                (after_calls fresh_store 2) H) as [Hd [Hb _]].
  split; [exact Hd|exact Hb].
Defined.

Lemma rate_limited_wait_witness :
  exists line wait,
    loop_body (fun _ => @Rejected string (error_with_delay "3s"))
              sample_args 10 (mkLoopState 1 initial_delay) fresh_store =
    (Ok (Continue (advance (mkLoopState 1 initial_delay))),
     after_calls fresh_store 1,
     [EvGenerate sample_args false; EvLog line; EvSleep wait]) /\
    wait = 3 * 1000.
Proof.
  destruct (rate_limited_wait string string string
              (fun _ => @Rejected string (error_with_delay "3s"))
              sample_args 10 (mkLoopState 1 initial_delay) fresh_store
              (error_with_delay "3s") eq_refl eq_refl)
    as [line [wait [Hbody [Hdigits _]]]].
  exists line, wait. split; [exact Hbody|].
  apply (Hdigits (mkDetail (Some RetryInfo_type) (Some "3s")) (D3 Nil));
    [reflexivity|reflexivity|discriminate].
Defined.

Lemma generateWithRetry_429_500_success_witness :
  exists tr,
    generateWithRetry
      (script [Rejected error_429; Rejected error_500; Resolved "done"]
              (Resolved "late"))
      sample_args 3 fresh_store
    = (Ok "done", after_calls fresh_store 3, tr) /\
    sleeps tr = [5 * 1000; 10 * 1000] /\
    kinds tr = [KCall; KSleep; KCall; KSleep; KCall] /\
    List.length (calls_of tr) = 3%nat.
Proof.
  apply (generateWithRetry_429_500_success string string string
           (script [Rejected error_429; Rejected error_500; Resolved "done"]
                   (Resolved "late"))
           sample_args fresh_store error_429 error_500 "done");
    reflexivity.
Defined.

(** C5 as stated fails.  [0s] is a string of digits followed by [s] and its
    value is 0, yet the wait after it is the backoff delay, 5000 ms, not 0 ms.
    [3.5s] and [3] are not strings of digits followed by [s], yet the waits
    after them are 3000 ms, not the backoff delay of 5000 ms. *)
Lemma retry_delay_claim_counterexample :
  let wait_after s :=
    sleeps (snd (loop_body (fun _ => @Rejected string (error_with_delay s))
                           sample_args 10 (mkLoopState 1 initial_delay)
                           fresh_store)) in
  ("0s" = (NilEmpty.string_of_uint (D0 Nil) ++ "s")%string /\
   Z.of_N (N.of_uint (D0 Nil)) * 1000 = 0 /\
   wait_after "0s" = [5000]) /\
  ((forall u, "3.5s" <> (NilEmpty.string_of_uint u ++ "s")%string) /\
   initial_delay / 1000 * 1000 = 5000 /\
   wait_after "3.5s" = [3000]) /\
  ((forall u, "3" <> (NilEmpty.string_of_uint u ++ "s")%string) /\
   wait_after "3" = [3000]).
Proof.
  cbv zeta. split; [|split].
  - repeat split.
  - split; [|split; reflexivity].
    intros u H. destruct u; try discriminate.
    destruct u; discriminate.
  - split; [|reflexivity].
    intros u H. destruct u; try discriminate.
    destruct u; discriminate.
Qed.

(** C6 as stated fails.  With shouldSummarize = false and a provider whose
    first answer is a 500 failure and whose second is a response,
    runIteration completes normally after invoking the provider twice, not
    once. *)
Lemma runIteration_single_call_counterexample :
  let '(r, _, t) :=
    sample_iteration (script [Rejected error_500] (Resolved "done")) false in
  r = Ok tt /\
  List.length (calls_of t) = 2%nat /\
  List.length (calls_of t) <> 1%nat.
Proof.
  vm_compute. repeat split. discriminate.
Qed.

(** ** Concrete runs for the further properties *)

Example retry_delay_digit_after_s :
  extractRetryDelay (error_with_delay "3s5") = Some 35.
Proof. reflexivity. Qed.

Lemma generateWithRetry_no_attempt_witness :
  generateWithRetry always_500 sample_args 0 fresh_store =
  (Throw (NewError max_retries_message), fresh_store, []).
Proof.
  apply (generateWithRetry_no_attempt string string string always_500
           sample_args 0 fresh_store).
  lia.
Defined.

Lemma generateWithRetry_wait_schedule_witness :
  exists e,
    script [Rejected (error_with_delay "3s"); Rejected error_500;
            Resolved "done"] (Resolved "late") (1 + st_calls fresh_store)
    = Rejected e /\
    match classify e with
    | Transient => 10000 = delay_after 1
    | RateLimited =>
        match extractRetryDelay e with
        | Some secs =>
            if secs =? 0 then 10000 = delay_after 1 else 10000 = secs * 1000
        | None => 10000 = delay_after 1
        end
    | Fatal => False
    end.
Proof.
  apply (generateWithRetry_wait_schedule string string string
           (script [Rejected (error_with_delay "3s"); Rejected error_500;
                    Resolved "done"] (Resolved "late"))
           sample_args 3 fresh_store 1%nat 10000).
  reflexivity.
Defined.

Lemma extractRetryDelay_first_RetryInfo_witness :
  let other := mkDetail (Some "type.googleapis.com/google.rpc.Help")
                        (Some "9s") in
  let first := mkDetail (Some RetryInfo_type) None in
  let later := mkDetail (Some RetryInfo_type) (Some "7s") in
  let e := mkProviderError (Js.CNum 429) Js.CAbsent
                           (Some [other; first; later]) None in
  find_RetryInfo e = Some first /\
  extractRetryDelay e = extractRetryDelay (with_details e (Some [first])).
Proof.
  cbv zeta.
  apply (extractRetryDelay_first_RetryInfo
           (mkProviderError (Js.CNum 429) Js.CAbsent
              (Some [mkDetail (Some "type.googleapis.com/google.rpc.Help")
                              (Some "9s");
                     mkDetail (Some RetryInfo_type) None;
                     mkDetail (Some RetryInfo_type) (Some "7s")]) None)
           [mkDetail (Some "type.googleapis.com/google.rpc.Help") (Some "9s")]
           (mkDetail (Some RetryInfo_type) None)
           [mkDetail (Some RetryInfo_type) (Some "7s")]);
    reflexivity.
Defined.

Lemma extractRetryDelay_ignores_trailing_text_witness :
  extractRetryDelay (error_with_delay "3.5s") = Some (Z.of_N (N.of_uint (D3 Nil))).
Proof.
  apply (extractRetryDelay_ignores_trailing_text
           (error_with_delay "3.5s")
           (mkDetail (Some RetryInfo_type) (Some "3.5s"))
           (D3 Nil) "."%char "5s");
    try reflexivity; discriminate.
Defined.

Lemma negative_retry_delay_is_slept_witness :
  extractRetryDelay (error_with_delay "-5s") = Some (- Z.of_N (N.of_uint (D5 Nil))) /\
  sleeps (snd (loop_body (fun _ => @Rejected string (error_with_delay "-5s"))
                         sample_args 10 (mkLoopState 1 initial_delay)
                         fresh_store))
  = [- Z.of_N (N.of_uint (D5 Nil)) * 1000].
Proof.
  apply (negative_retry_delay_is_slept string string string
           (fun _ => @Rejected string (error_with_delay "-5s"))
           sample_args 10 (mkLoopState 1 initial_delay) fresh_store
           (error_with_delay "-5s")
           (mkDetail (Some RetryInfo_type) (Some "-5s")) (D5 Nil));
    try reflexivity; discriminate.
Defined.

Lemma generateWithRetry_code_hides_status_witness :
  let e := mkProviderError (Js.CNum 400) (Js.CNum 429) None None in
  generateWithRetry (fun _ => @Rejected string e) sample_args 3 fresh_store =
  (Throw (ProviderCause e), after_calls fresh_store 1,
   [EvGenerate sample_args (is_aborted (mkAbortSignal 0) fresh_store);
    EvLog (ErrorFatal (ProviderCause e))]).
Proof.
  cbv zeta.
  apply (generateWithRetry_code_hides_status string string string
           (fun _ => @Rejected string
                       (mkProviderError (Js.CNum 400) (Js.CNum 429) None None))
           sample_args 3 fresh_store
           (mkProviderError (Js.CNum 400) (Js.CNum 429) None None)).
  - lia.
  - reflexivity.
  - right. exists 400. repeat split; lia.
Defined.

Lemma status_decides_without_code_witness :
  let e := mkProviderError (Js.CNum 0) (Js.CNum 503) None None in
  classify e = (if 503 =? 429 then RateLimited else Transient) /\
  exists t,
    loop_body (fun _ => @Rejected string e) sample_args 10
              (mkLoopState 1 initial_delay) fresh_store =
    (Ok (Continue (advance (mkLoopState 1 initial_delay))),
     after_calls fresh_store 1, t).
Proof.
  cbv zeta.
  apply (status_decides_without_code string string string
           (fun _ => @Rejected string
                       (mkProviderError (Js.CNum 0) (Js.CNum 503) None None))
           sample_args 10 (mkLoopState 1 initial_delay) fresh_store
           (mkProviderError (Js.CNum 0) (Js.CNum 503) None None) 503).
  - reflexivity.
  - right. reflexivity.
  - reflexivity.
  - right. lia.
Defined.

Lemma generateWithRetry_total_wait_bound_witness :
  Forall (fun w => 5000 <= w <= 60000)
         (sleeps (snd (generateWithRetry always_500 sample_args 10
                                         fresh_store))) /\
  fold_right Z.add 0
             (sleeps (snd (generateWithRetry always_500 sample_args 10
                                             fresh_store)))
  <= 60000 * Z.max 0 10.
Proof.
  apply (generateWithRetry_total_wait_bound string string string always_500
           sample_args 10 fresh_store).
  intros k e H. inversion H. left. reflexivity.
Defined.
